(** * ws-sync: the WebSocket session and the synced-state coordinator

    A shallow embedding of [src/session.ts] (class [Session]) and of the
    synced reducer hook ([createSynced], [wrappedReducer]) together with the
    properties of the reconnection policy, the event registry, the framing
    protocol and the state transition function.

    Conventions of the embedding:
    - JavaScript values are the inductive [Value]; numbers are integers.
    - A text frame is represented by the JSON value its text denotes
      ([jsonView] is [JSON.parse] after [JSON.stringify]); an incoming text
      frame by the value [JSON.parse] returns for it, if any.
    - Callbacks are defunctionalised closures ([Callback]); calling one is an
      observation appended to the session log.  Application callbacks are
      opaque and are assumed to return normally.
    - The browser objects the session talks to (sockets, timers, the toast
      sink, the connection observer, the console) are part of the state:
      their calls are logged in order in [log].  The [WebSocket] constructor
      is assumed to accept the url.
    - A table kept in an object literal ([eventHandlers], [initHandlers]) is
      a finite map of its own entries; the [in] operator also sees the
      members every object inherits ([inherited]).
    - The hook is modelled by the pair its reducer holds, the actions
      dispatched since the last render, and the closures it registered. *)

From stdpp Require Import gmap strings list.
From Stdlib Require Import Ascii DecimalString.

Open Scope Z_scope.
Open Scope string_scope.
Open Scope list_scope.

Set Warnings "-register-all".

(** ** JavaScript values *)

Module JS.

Inductive Value :=
| VUndefined
| VNull
| VBool (b : bool)
| VNum (n : Z)
| VStr (s : string)
| VBin (payload : list Byte.byte)
| VArr (items : list Value)
| VObj (fields : list (string * Value)).

Inductive Error :=
| TypeError
| SyntaxError
| ErrorMsg (msg : string).

(** Completion of a call: a normal result or a thrown exception. *)
Inductive Exc (A : Type) :=
| Ok (a : A)
| Throw (e : Error).
Arguments Ok {A} a.
Arguments Throw {A} e.

Definition bind {A B} (m : Exc A) (f : A -> Exc B) : Exc B :=
  match m with
  | Ok a => f a
  | Throw e => Throw e
  end.

#[global] Instance exc_bind : MBind Exc := fun _ _ f m => bind m f.
#[global] Instance exc_ret : MRet Exc := fun _ a => Ok a.

(** *** Objects: own properties in insertion order *)

Fixpoint own {A} (k : string) (fields : list (string * A)) : option A :=
  match fields with
  | [] => None
  | (k', v) :: rest => if String.eqb k k' then Some v else own k rest
  end.

(** [o[k] = v]: an existing key keeps its position. *)
Fixpoint put {A} (k : string) (v : A) (fields : list (string * A))
  : list (string * A) :=
  match fields with
  | [] => [(k, v)]
  | (k', v') :: rest =>
      if String.eqb k k' then (k, v) :: rest else (k', v') :: put k v rest
  end.

Fixpoint remove {A} (k : string) (fields : list (string * A))
  : list (string * A) :=
  match fields with
  | [] => []
  | (k', v') :: rest =>
      if String.eqb k k' then rest else (k', v') :: remove k rest
  end.

Definition decimal (n : Z) : string := NilZero.string_of_int (Z.to_int n).

Fixpoint indexed (i : nat) (items : list Value) : list (string * Value) :=
  match items with
  | [] => []
  | v :: rest => (decimal (Z.of_nat i), v) :: indexed (S i) rest
  end.

Fixpoint chars (s : string) : list Value :=
  match s with
  | EmptyString => []
  | String c rest => VStr (String c EmptyString) :: chars rest
  end.

(** The own enumerable properties copied by a spread [...v]. *)
Definition enumerable (v : Value) : list (string * Value) :=
  match v with
  | VObj fields => fields
  | VArr items => indexed 0 items
  | VStr s => indexed 0 (chars s)
  | _ => []
  end.

(** [{...target, ...v}] *)
Definition spread (target : list (string * Value)) (v : Value)
  : list (string * Value) :=
  fold_left (fun acc kv => put (fst kv) (snd kv) acc) (enumerable v) target.

(** [v.k] for a name [k] that no built-in prototype defines
    ([type], [data], [metadata], [filename], [op], [path], [value]). *)
Definition getProp (v : Value) (k : string) : Exc Value :=
  match v with
  | VUndefined | VNull => Throw TypeError
  | VObj fields => Ok (default VUndefined (own k fields))
  | _ => Ok VUndefined
  end.

Fixpoint join (sep : string) (parts : list string) : string :=
  match parts with
  | [] => ""
  | [p] => p
  | p :: rest => p ++ sep ++ join sep rest
  end.

(** [String(v)] *)
Fixpoint toStr (v : Value) : string :=
  match v with
  | VUndefined => "undefined"
  | VNull => "null"
  | VBool true => "true"
  | VBool false => "false"
  | VNum n => decimal n
  | VStr s => s
  | VBin _ => "[object ArrayBuffer]"
  | VArr items =>
      join "," (map (fun x => match x with
                              | VUndefined | VNull => ""
                              | _ => toStr x
                              end) items)
  | VObj _ => "[object Object]"
  end.

(** [v == lit] for a string literal [lit] that is not the text of a number
    (the reserved control types): a string compares by content, an object by
    its primitive, anything else is different. *)
Definition looseEq (v : Value) (lit : string) : bool :=
  match v with
  | VStr s => String.eqb s lit
  | VBin _ | VArr _ | VObj _ => String.eqb (toStr v) lit
  | _ => false
  end.

(** [v === lit] *)
Definition strictEq (v : Value) (lit : string) : bool :=
  match v with
  | VStr s => String.eqb s lit
  | _ => false
  end.

(** [JSON.parse(JSON.stringify(v))] for a value that is sent inside an object
    or array: an [undefined] property is left out, an [undefined] item and a
    top-level [undefined] become [null], a binary buffer has no enumerable
    property. *)
Fixpoint jsonView (v : Value) : Value :=
  match v with
  | VUndefined => VNull
  | VBin _ => VObj []
  | VArr items => VArr (map jsonView items)
  | VObj fields =>
      VObj ((fix go (fs : list (string * Value)) : list (string * Value) :=
               match fs with
               | [] => []
               | (k, VUndefined) :: rest => go rest
               | (k, x) :: rest => (k, jsonView x) :: go rest
               end) fields)
  | _ => v
  end.

(** Values in the image of [JSON.parse]. *)
Fixpoint isJson (v : Value) : bool :=
  match v with
  | VUndefined | VBin _ => false
  | VArr items => forallb isJson items
  | VObj fields => forallb (fun kv => isJson (snd kv)) fields
  | _ => true
  end.

(** Names that every plain object inherits from [Object.prototype]; the [in]
    operator and a property read see them on an object literal. *)
Definition objectPrototype : list string :=
  [ "constructor"; "__defineGetter__"; "__defineSetter__"; "hasOwnProperty";
    "__lookupGetter__"; "__lookupSetter__"; "isPrototypeOf";
    "propertyIsEnumerable"; "toString"; "valueOf"; "__proto__";
    "toLocaleString" ].

Definition inherited (k : string) : bool :=
  existsb (String.eqb k) objectPrototype.

End JS.
Import JS.

(** ** The browser side: sockets, toasts, observations *)

Inductive ReadyState := CONNECTING | OPEN | CLOSING | CLOSED.

(** A [WebSocket] object: its [readyState] and whether the session's
    [onopen]/[onclose]/[onerror]/[onmessage] closures are still attached. *)
Record Socket := MkSocket { readyState : ReadyState; attached : bool }.

(** Closures registered with the session, defunctionalised: the code of the
    closure and the values it captured. *)
Inductive Callback :=
| CbUser (name : string)
| CbSendState (key : string) (state : Value)
| CbSetState (key : string)
| CbPatchState (key : string)
| CbActionState (key : string).

Inductive ToastKind := TInfo | TSuccess | TWarning | TError | TLoading.

(** The message templates of the session, with their arguments. *)
Inductive Message :=
| MsgConnecting (label : string)
| MsgConnected (label : string)
| MsgRetrying (label : string) (interval : Z)
| MsgDisconnected (label : string)
| MsgSocketError (label : string)
| MsgNotConnected (label : string)
| MsgServer (label : string) (data : Value).

Inductive Obs :=
| Toast (kind : ToastKind) (msg : Message) (duration : option Z)
| ConnectionChange (connected : bool)
| NewSocket (id : nat) (url : string)
| SocketClose (id : nat)
| SendText (id : nat) (frame : Value)
| SendBytes (id : nat) (payload : list Byte.byte)
| SetTimeout (timer : nat) (delay : Z)
| ClearTimeout (timer : nat)
| Invoke (cb : Callback) (arg : Value)
| InvokeBuiltin (name : string) (arg : Value)
| FetchDownload (filename data : Value)
| ConsoleLog (text : string)
| ConsoleError (text : string).

Inductive MessageEvent :=
| TextMessage (parsed : option Value)
| BinaryMessage (payload : list Byte.byte).

(** ** The session *)

(** The fields of [class Session] ([store] is never read by the class and is
    left out; [toast] and [onConnectionChange] record whether the optional
    collaborator was given), followed by the browser state the session acts
    on: the sockets it created, the pending timers and the log. *)
Record Session := MkSession {
  url : string;
  label : string;
  toast : bool;
  onConnectionChange : bool;
  minRetryInterval : Z;
  maxRetryInterval : Z;
  ws : option nat;
  isConnected : bool;
  currentRetryInterval : Z;
  eventHandlers : gmap string Callback;
  initHandlers : gmap string Callback;
  binaryHandler : option Callback;
  binData : Value;
  retryTimeout : option nat;
  autoReconnect : bool;
  sockets : list Socket;
  timers : list (nat * Z);
  nextTimer : nat;
  log : list Obs
}.

Record SessionConfig := MkConfig {
  cfg_url : string;
  cfg_label : string;
  cfg_toast : bool;
  cfg_minRetryInterval : Z;
  cfg_maxRetryInterval : Z;
  cfg_onConnectionChange : bool
}.

Definition defaultConfig (u : string) : SessionConfig :=
  MkConfig u "Server" false 250 10000 false.

(** [new Session(config)] *)
Definition newSession (c : SessionConfig) : Session :=
  {| url := cfg_url c; label := cfg_label c; toast := cfg_toast c;
     onConnectionChange := cfg_onConnectionChange c;
     minRetryInterval := cfg_minRetryInterval c;
     maxRetryInterval := cfg_maxRetryInterval c;
     ws := None; isConnected := false;
     currentRetryInterval := cfg_minRetryInterval c;
     eventHandlers := ∅; initHandlers := ∅; binaryHandler := None;
     binData := VNull; retryTimeout := None; autoReconnect := true;
     sockets := []; timers := []; nextTimer := 0%nat; log := [] |}.

Section Updates.
Variable s : Session.

Definition set_ws (x : option nat) : Session :=
  MkSession (url s) (label s) (toast s) (onConnectionChange s)
    (minRetryInterval s) (maxRetryInterval s) x (isConnected s)
    (currentRetryInterval s) (eventHandlers s) (initHandlers s)
    (binaryHandler s) (binData s) (retryTimeout s) (autoReconnect s)
    (sockets s) (timers s) (nextTimer s) (log s).

Definition set_isConnected (x : bool) : Session :=
  MkSession (url s) (label s) (toast s) (onConnectionChange s)
    (minRetryInterval s) (maxRetryInterval s) (ws s) x
    (currentRetryInterval s) (eventHandlers s) (initHandlers s)
    (binaryHandler s) (binData s) (retryTimeout s) (autoReconnect s)
    (sockets s) (timers s) (nextTimer s) (log s).

Definition set_currentRetryInterval (x : Z) : Session :=
  MkSession (url s) (label s) (toast s) (onConnectionChange s)
    (minRetryInterval s) (maxRetryInterval s) (ws s) (isConnected s)
    x (eventHandlers s) (initHandlers s)
    (binaryHandler s) (binData s) (retryTimeout s) (autoReconnect s)
    (sockets s) (timers s) (nextTimer s) (log s).

Definition set_eventHandlers (x : gmap string Callback) : Session :=
  MkSession (url s) (label s) (toast s) (onConnectionChange s)
    (minRetryInterval s) (maxRetryInterval s) (ws s) (isConnected s)
    (currentRetryInterval s) x (initHandlers s)
    (binaryHandler s) (binData s) (retryTimeout s) (autoReconnect s)
    (sockets s) (timers s) (nextTimer s) (log s).

Definition set_initHandlers (x : gmap string Callback) : Session :=
  MkSession (url s) (label s) (toast s) (onConnectionChange s)
    (minRetryInterval s) (maxRetryInterval s) (ws s) (isConnected s)
    (currentRetryInterval s) (eventHandlers s) x
    (binaryHandler s) (binData s) (retryTimeout s) (autoReconnect s)
    (sockets s) (timers s) (nextTimer s) (log s).

Definition set_binaryHandler (x : option Callback) : Session :=
  MkSession (url s) (label s) (toast s) (onConnectionChange s)
    (minRetryInterval s) (maxRetryInterval s) (ws s) (isConnected s)
    (currentRetryInterval s) (eventHandlers s) (initHandlers s)
    x (binData s) (retryTimeout s) (autoReconnect s)
    (sockets s) (timers s) (nextTimer s) (log s).

Definition set_binData (x : Value) : Session :=
  MkSession (url s) (label s) (toast s) (onConnectionChange s)
    (minRetryInterval s) (maxRetryInterval s) (ws s) (isConnected s)
    (currentRetryInterval s) (eventHandlers s) (initHandlers s)
    (binaryHandler s) x (retryTimeout s) (autoReconnect s)
    (sockets s) (timers s) (nextTimer s) (log s).

Definition set_retryTimeout (x : option nat) : Session :=
  MkSession (url s) (label s) (toast s) (onConnectionChange s)
    (minRetryInterval s) (maxRetryInterval s) (ws s) (isConnected s)
    (currentRetryInterval s) (eventHandlers s) (initHandlers s)
    (binaryHandler s) (binData s) x (autoReconnect s)
    (sockets s) (timers s) (nextTimer s) (log s).

Definition set_autoReconnect (x : bool) : Session :=
  MkSession (url s) (label s) (toast s) (onConnectionChange s)
    (minRetryInterval s) (maxRetryInterval s) (ws s) (isConnected s)
    (currentRetryInterval s) (eventHandlers s) (initHandlers s)
    (binaryHandler s) (binData s) (retryTimeout s) x
    (sockets s) (timers s) (nextTimer s) (log s).

Definition set_sockets (x : list Socket) : Session :=
  MkSession (url s) (label s) (toast s) (onConnectionChange s)
    (minRetryInterval s) (maxRetryInterval s) (ws s) (isConnected s)
    (currentRetryInterval s) (eventHandlers s) (initHandlers s)
    (binaryHandler s) (binData s) (retryTimeout s) (autoReconnect s)
    x (timers s) (nextTimer s) (log s).

Definition set_timers (x : list (nat * Z)) (next : nat) : Session :=
  MkSession (url s) (label s) (toast s) (onConnectionChange s)
    (minRetryInterval s) (maxRetryInterval s) (ws s) (isConnected s)
    (currentRetryInterval s) (eventHandlers s) (initHandlers s)
    (binaryHandler s) (binData s) (retryTimeout s) (autoReconnect s)
    (sockets s) x next (log s).

(** One more call observed. *)
Definition emit (o : Obs) : Session :=
  MkSession (url s) (label s) (toast s) (onConnectionChange s)
    (minRetryInterval s) (maxRetryInterval s) (ws s) (isConnected s)
    (currentRetryInterval s) (eventHandlers s) (initHandlers s)
    (binaryHandler s) (binData s) (retryTimeout s) (autoReconnect s)
    (sockets s) (timers s) (nextTimer s) (log s ++ [o]).
End Updates.

(** [this.toast?.kind(msg, opts)] *)
Definition notify (kind : ToastKind) (msg : Message) (duration : option Z)
    (s : Session) : Session :=
  if toast s then emit s (Toast kind msg duration) else s.

(** [if (this.onConnectionChange) this.onConnectionChange(b)] *)
Definition observe (b : bool) (s : Session) : Session :=
  if onConnectionChange s then emit s (ConnectionChange b) else s.

(** [this.ws?.readyState] *)
Definition wsReadyState (s : Session) : option ReadyState :=
  id ← ws s; sock ← sockets s !! id; Some (readyState sock).

(** [key in handlers] on an object literal used as a table. *)
Definition hasProperty (key : string) (handlers : gmap string Callback) : bool :=
  match handlers !! key with
  | Some _ => true
  | None => inherited key
  end.

(** *** The event registry *)

Definition registerEvent (event : string) (callback : Callback) (s : Session)
  : Exc Session :=
  if hasProperty event (eventHandlers s)
  then Throw (ErrorMsg ("already subscribed to " ++ event))
  else Ok (set_eventHandlers s (<[event := callback]> (eventHandlers s))).

Definition deregisterEvent (event : string) (s : Session) : Exc Session :=
  if negb (hasProperty event (eventHandlers s))
  then Throw (ErrorMsg ("not subscribed to " ++ event))
  else Ok (set_eventHandlers s (delete event (eventHandlers s))).

Definition registerInit (key : string) (callback : Callback) (s : Session)
  : Exc Session :=
  if hasProperty key (initHandlers s)
  then Throw (ErrorMsg "already registered")
  else Ok (set_initHandlers s (<[key := callback]> (initHandlers s))).

Definition deregisterInit (key : string) (s : Session) : Exc Session :=
  if negb (hasProperty key (initHandlers s))
  then Throw (ErrorMsg "not registered")
  else Ok (set_initHandlers s (delete key (initHandlers s))).

Definition registerBinary (callback : Callback) (s : Session) : Exc Session :=
  match binaryHandler s with
  | Some _ => Throw (ErrorMsg "already registered")
  | None => Ok (set_binaryHandler s (Some callback))
  end.

Definition deregisterBinary (s : Session) : Exc Session :=
  match binaryHandler s with
  | None => Throw (ErrorMsg "not registered")
  | Some _ => Ok (set_binaryHandler s None)
  end.

(** *** Sending *)

(** The socket of [this.ws] when its [readyState] is [OPEN]. *)
Definition openSocket (s : Session) : option nat :=
  match wsReadyState s with
  | Some OPEN => ws s
  | _ => None
  end.

Definition send (event : string) (data : Value) (s : Session) : Session :=
  match openSocket s with
  | None => notify TError (MsgNotConnected (label s)) None s
  | Some id =>
      emit s (SendText id
                (jsonView (VObj [("type", VStr event); ("data", data)])))
  end.

Definition sendBinary (event : string) (metadata : Value)
    (data : list Byte.byte) (s : Session) : Session :=
  match openSocket s with
  | None => notify TError (MsgNotConnected (label s)) None s
  | Some id =>
      let s1 :=
        emit s (SendText id
                  (jsonView
                     (VObj [("type", VStr "_BIN_META");
                            ("data", VObj [("type", VStr event);
                                           ("metadata", metadata)])]))) in
      emit s1 (SendBytes id data)
  end.

(** *** Connecting and disconnecting *)

(** [socket.close()]: an open or connecting socket starts closing. *)
Definition closing (sock : Socket) : Socket :=
  match readyState sock with
  | CONNECTING | OPEN => MkSocket CLOSING (attached sock)
  | _ => sock
  end.

Definition detach (sock : Socket) : Socket := MkSocket (readyState sock) false.

(** [this.ws?.close()] *)
Definition wsClose (s : Session) : Session :=
  match ws s with
  | Some id => emit (set_sockets s (alter closing id (sockets s))) (SocketClose id)
  | None => s
  end.

(** [connect()]: a new socket replaces [this.ws]; the four closures are set
    on it.  The socket that [this.ws] named before is neither closed nor
    detached. *)
Definition connect (s : Session) : Session :=
  let s := notify TInfo (MsgConnecting (label s)) None s in
  let id := length (sockets s) in
  let s := emit (set_sockets s (sockets s ++ [MkSocket CONNECTING true]))
                (NewSocket id (url s)) in
  let s := set_ws s (Some id) in
  set_autoReconnect s true.

Definition onopen (s : Session) : Session :=
  let s := notify TSuccess (MsgConnected (label s)) None s in
  let s := set_isConnected s true in
  let s := observe (isConnected s) s in
  set_currentRetryInterval s (minRetryInterval s).

(** [setTimeout(retry, delay)] *)
Definition setTimeout (delay : Z) (s : Session) : nat * Session :=
  let t := nextTimer s in
  (t, emit (set_timers s (timers s ++ [(t, delay)]) (S t)) (SetTimeout t delay)).

Definition clearTimeout (t : nat) (s : Session) : Session :=
  emit (set_timers s (filter (fun p => fst p ≠ t) (timers s)) (nextTimer s))
       (ClearTimeout t).

Definition onclose (s : Session) : Session :=
  let s := set_isConnected s false in
  let s := observe (isConnected s) s in
  if autoReconnect s then
    let s := notify TWarning
               (MsgRetrying (label s) (currentRetryInterval s)) None s in
    let '(t, s) := setTimeout (currentRetryInterval s) s in
    let s := set_retryTimeout s (Some t) in
    set_currentRetryInterval s
      (Z.min (currentRetryInterval s * 2) (maxRetryInterval s))
  else notify TWarning (MsgDisconnected (label s)) None s.

Definition onerror (s : Session) : Session :=
  let s := emit s (ConsoleError "Socket encountered error: ") in
  let s := notify TError (MsgSocketError (label s)) None s in
  wsClose s.

(** The closure given to [setTimeout] in [onclose]. *)
Definition retry (s : Session) : Session :=
  if negb (String.eqb (url s) "") && negb (isConnected s)
  then connect s else s.

Definition disconnect (s : Session) : Session :=
  let s := set_autoReconnect s false in
  let s := wsClose s in
  let s := observe false s in
  let s := match ws s with
           | Some id => set_ws (set_sockets s (alter detach id (sockets s))) None
           | None => s
           end in
  match retryTimeout s with
  | Some t => set_retryTimeout (clearTimeout t s) None
  | None => s
  end.

(** *** Inbound dispatch *)

(** [this.eventHandlers[key](arg)] once [key in this.eventHandlers] holds: an
    own entry is the registered callback; otherwise the member is inherited,
    where [__proto__] is not a function and the two accessor definers reject
    a call without a function argument. *)
Definition callMember (key : string) (arg : Value) (s : Session) : Exc Session :=
  match eventHandlers s !! key with
  | Some cb => Ok (emit s (Invoke cb arg))
  | None =>
      if negb (inherited key) then Throw TypeError
      else if String.eqb key "__proto__" then Throw TypeError
      else if String.eqb key "__defineGetter__" then Throw TypeError
      else if String.eqb key "__defineSetter__" then Throw TypeError
      else Ok (emit s (InvokeBuiltin key arg))
  end.

Definition isNull (v : Value) : bool :=
  match v with VNull => true | _ => false end.

Definition handleReceiveEvent (e : MessageEvent) (s : Session) : Exc Session :=
  match e with
  | TextMessage None => Throw SyntaxError
  | TextMessage (Some event) =>
      ty ← getProp event "type";
      data ← getProp event "data";
      if looseEq ty "_DISCONNECT" then
        let s := disconnect s in
        Ok (notify TLoading (MsgServer (label s) data) (Some 10000000) s)
      else if looseEq ty "_DOWNLOAD" then
        filename ← getProp data "filename";
        content ← getProp data "data";
        Ok (emit s (FetchDownload filename content))
      else if looseEq ty "_BIN_META" then
        let s := if isNull (binData s) then s
                 else emit s (ConsoleLog "overwriting bytes metadata") in
        Ok (set_binData s data)
      else if hasProperty (toStr ty) (eventHandlers s) then
        callMember (toStr ty) data s
      else Ok (emit s (ConsoleLog ("unhandled event: " ++ toStr ty)))
  | BinaryMessage payload =>
      if negb (isNull (binData s)) then
        ty ← getProp (binData s) "type";
        s' ← (if hasProperty (toStr ty) (eventHandlers s) then
                metadata ← getProp (binData s) "metadata";
                callMember (toStr ty)
                  (VObj (spread [("data", VBin payload)] metadata)) s
              else Ok (emit s (ConsoleLog
                                 ("no handler for binary event: " ++ toStr ty))));
        Ok (set_binData s' VNull)
      else
        match binaryHandler s with
        | Some cb => Ok (emit s (Invoke cb (VBin payload)))
        | None => Ok (emit s (ConsoleLog "unhandled binary message"))
        end
  end.

(** ** The session as a transition system *)

(** What can happen to a session: a call of its public interface, an event of
    one of the sockets it created, or a timer firing. *)
Inductive Input :=
| CallConnect
| CallDisconnect
| CallSend (event : string) (data : Value)
| CallSendBinary (event : string) (metadata : Value) (data : list Byte.byte)
| CallRegisterEvent (event : string) (callback : Callback)
| CallDeregisterEvent (event : string)
| CallRegisterInit (key : string) (callback : Callback)
| CallDeregisterInit (key : string)
| CallRegisterBinary (callback : Callback)
| CallDeregisterBinary
| SocketOpens (id : nat)
| SocketCloses (id : nat)
| SocketFails (id : nat)
| SocketReceives (id : nat) (e : MessageEvent)
| TimerFires (timer : nat).

(** A call that throws leaves the session as it was. *)
Definition settle (s : Session) (r : Exc Session) : Session :=
  match r with
  | Ok s' => s'
  | Throw _ => s
  end.

Definition setReadyState (id : nat) (r : ReadyState) (s : Session) : Session :=
  set_sockets s (alter (fun sock => MkSocket r (attached sock)) id (sockets s)).

Definition exec (i : Input) (s : Session) : Session :=
  match i with
  | CallConnect => connect s
  | CallDisconnect => disconnect s
  | CallSend event data => send event data s
  | CallSendBinary event metadata data => sendBinary event metadata data s
  | CallRegisterEvent event cb => settle s (registerEvent event cb s)
  | CallDeregisterEvent event => settle s (deregisterEvent event s)
  | CallRegisterInit key cb => settle s (registerInit key cb s)
  | CallDeregisterInit key => settle s (deregisterInit key s)
  | CallRegisterBinary cb => settle s (registerBinary cb s)
  | CallDeregisterBinary => settle s (deregisterBinary s)
  | SocketOpens id =>
      match sockets s !! id with
      | Some (MkSocket CONNECTING a) =>
          let s := setReadyState id OPEN s in
          if a then onopen s else s
      | _ => s
      end
  | SocketCloses id =>
      match sockets s !! id with
      | Some (MkSocket CLOSED _) | None => s
      | Some (MkSocket _ a) =>
          let s := setReadyState id CLOSED s in
          if a then onclose s else s
      end
  | SocketFails id =>
      match sockets s !! id with
      | Some (MkSocket CLOSED _) | None => s
      | Some (MkSocket _ a) => if a then onerror s else s
      end
  | SocketReceives id e =>
      match sockets s !! id with
      | Some (MkSocket OPEN true) => settle s (handleReceiveEvent e s)
      | _ => s
      end
  | TimerFires t =>
      if existsb (fun p => Nat.eqb (fst p) t) (timers s)
      then retry (set_timers s (filter (fun p => fst p ≠ t) (timers s))
                             (nextTimer s))
      else s
  end.

Definition run (inputs : list Input) (s : Session) : Session :=
  fold_left (fun acc i => exec i acc) inputs s.

(** ** JSON patches

    [applyReducer] and [deepClone] come from the library the coordinator
    imports.  The coordinator is defined over any implementation of the two
    ([PatchLib]); [fastJsonPatch] models the library on the operations the
    coordinator produces and receives: [add], [replace] and [remove] at a
    slash-delimited pointer into nested objects and arrays.  Anything else is
    reported as [Unsupported] rather than given a meaning. *)

Record PatchLib := MkPatchLib {
  applyReducer : Value -> Value -> Exc Value;
  deepClone : Value -> Value
}.

Module FastJsonPatch.

Definition Unsupported : Error := ErrorMsg "unsupported operation".

(** [s.split("/")] *)
Fixpoint split (s : string) : list string :=
  match s with
  | EmptyString => [""]
  | String c rest =>
      if Ascii.eqb c "/"%char then "" :: split rest
      else match split rest with
           | [] => [String c ""]
           | h :: t => String c h :: t
           end
  end.

(** [s.replace(/ab/g, by)] for a two-character pattern. *)
Fixpoint replaceAll (a b : ascii) (by_ : string) (s : string) : string :=
  match s with
  | String c (String d rest as tail) =>
      if Ascii.eqb c a && Ascii.eqb d b then by_ ++ replaceAll a b by_ rest
      else String c (replaceAll a b by_ tail)
  | _ => s
  end.

Definition unescapePathComponent (s : string) : string :=
  replaceAll "~"%char "0"%char "~" (replaceAll "~"%char "1"%char "/" s).

Definition isDigit (c : ascii) : bool :=
  (48 <=? nat_of_ascii c)%nat && (nat_of_ascii c <=? 57)%nat.

Fixpoint isInteger (s : string) : bool :=
  match s with
  | EmptyString => true
  | String c rest => isDigit c && isInteger rest
  end.

Fixpoint parseDigits (acc : nat) (s : string) : nat :=
  match s with
  | EmptyString => acc
  | String c rest => parseDigits (10 * acc + (nat_of_ascii c - 48))%nat rest
  end.

Definition arrayIndex (key : string) (items : list Value) : option nat :=
  if String.eqb key "-" then Some (length items)
  else if isInteger key then Some (parseDigits 0 key)
  else None.

Definition objOp (op key : string) (value : Value)
    (fields : list (string * Value)) : Exc Value :=
  if String.eqb op "add" then Ok (VObj (put key value fields))
  else if String.eqb op "replace" then Ok (VObj (put key value fields))
  else if String.eqb op "remove" then Ok (VObj (remove key fields))
  else Throw Unsupported.

Definition arrOp (op : string) (i : nat) (value : Value) (items : list Value)
  : Exc Value :=
  if String.eqb op "add" then Ok (VArr (take i items ++ value :: drop i items))
  else if String.eqb op "replace" then
    Ok (VArr (if (i <? length items)%nat then <[i := value]> items
              else items ++ replicate (i - length items) VUndefined ++ [value]))
  else if String.eqb op "remove" then Ok (VArr (delete i items))
  else Throw Unsupported.

(** The walk of [applyOperation] along the keys of the path; [prev] is the
    key before the current one. *)
Fixpoint applyAt (op : string) (value : Value) (prev : string)
    (keys : list string) (doc : Value) : Exc Value :=
  match keys with
  | [] => Throw Unsupported
  | raw :: rest =>
      let key := unescapePathComponent raw in
      if String.eqb key "__proto__"
         || (String.eqb key "prototype" && String.eqb prev "constructor")
      then Throw TypeError
      else
        match doc with
        | VObj fields =>
            match rest with
            | [] => objOp op key value fields
            | _ =>
                child ← applyAt op value raw rest
                          (default VUndefined (own key fields));
                Ok (VObj (put key child fields))
            end
        | VArr items =>
            match arrayIndex key items with
            | None => Throw Unsupported
            | Some i =>
                match rest with
                | [] => arrOp op i value items
                | _ =>
                    child ← applyAt op value raw rest
                              (default VUndefined (items !! i));
                    Ok (VArr (<[i := child]> items))
                end
            end
        | _ => Throw TypeError
        end
  end.

Definition applyOperation (document operation : Value) : Exc Value :=
  path ← getProp operation "path";
  op ← getProp operation "op";
  value ← getProp operation "value";
  match path, op with
  | VStr p, VStr o =>
      if String.eqb p "" then
        if String.eqb o "add" then Ok value
        else if String.eqb o "replace" then Ok value
        else if String.eqb o "remove" then Ok VNull
        else Throw Unsupported
      else
        match split p with
        | "" :: keys => applyAt o value "" keys document
        | _ => Throw Unsupported
        end
  | _, _ => Throw Unsupported
  end.

End FastJsonPatch.

Definition fastJsonPatch : PatchLib :=
  MkPatchLib FastJsonPatch.applyOperation jsonView.

(** ** The synced-state coordinator *)

Definition setEvent (key : string) : string := "_SET:" ++ key.
Definition getEvent (key : string) : string := "_GET:" ++ key.
Definition patchEvent (key : string) : string := "_PATCH:" ++ key.
Definition actionEvent (key : string) : string := "_ACTION:" ++ key.
Definition taskStartEvent (key : string) : string := "_TASK_START:" ++ key.
Definition taskCancelEvent (key : string) : string := "_TASK_CANCEL:" ++ key.

(** The two capabilities handed to the user's reducer. *)
Inductive Capability :=
| Sync
| Delegate (actionOverride : Value).

(** What [produceWithPatches(syncedReducer)(state, action, sync, delegate)]
    yields: the next state, the patches recorded for the draft, and the calls
    of [sync] and [delegate] the reducer made, in order. *)
Record Produced := MkProduced {
  newState : Value;
  patches : list Value;
  calls : list Capability
}.

Definition SyncedReducer := Value -> Value -> Exc Produced.

(** The queued closures: [sync]'s holds the patch, [delegate]'s the action. *)
Inductive Effect :=
| EffSync (patch : list Value)
| EffDelegate (action : Value).

Inductive Accessor :=
| Setter (attr : string)
| Syncer (attr : string).

(** [c.toUpperCase()] on the basic Latin letters. *)
Definition toUpperCase (c : ascii) : ascii :=
  let n := nat_of_ascii c in
  if (97 <=? n)%nat && (n <=? 122)%nat then ascii_of_nat (n - 32) else c.

(** [attr.charAt(0).toUpperCase() + attr.slice(1)] *)
Definition upper (attr : string) : string :=
  match attr with
  | EmptyString => EmptyString
  | String c rest => String (toUpperCase c) rest
  end.

(** The hook instance: the session it talks to (if any), the pair held by
    [useReducer], and the actions dispatched since the last render. *)
Record World := MkWorld {
  session : option Session;
  state : Value;
  effects : list Effect;
  queue : list Value
}.

Section Coordinator.
Variable lib : PatchLib.
Variable key : string.
Variable syncedReducer : option SyncedReducer.
Variable sendOnInit : bool.

(** [session?.send(event, data)] *)
Definition sessionSend (event : string) (data : Value) (w : World) : World :=
  match session w with
  | Some s => MkWorld (Some (send event data s)) (state w) (effects w) (queue w)
  | None => w
  end.

Definition fetchRemoteState : World -> World :=
  sessionSend (getEvent key) (VObj []).
Definition sendState (newState : Value) : World -> World :=
  sessionSend (setEvent key) newState.
Definition sendPatch (patch : Value) : World -> World :=
  sessionSend (patchEvent key) patch.
Definition sendAction (action : Value) : World -> World :=
  sessionSend (actionEvent key) action.
Definition startTask (task : Value) : World -> World :=
  sessionSend (taskStartEvent key) task.
Definition cancelTask (task : Value) : World -> World :=
  sessionSend (taskCancelEvent key) task.
(** The hook's [sendBinary], named apart from the session's. *)
Definition coordinatorSendBinary (action : Value) (data : list Byte.byte)
    (w : World) : World :=
  match session w with
  | Some s =>
      MkWorld (Some (sendBinary (actionEvent key) action data s))
              (state w) (effects w) (queue w)
  | None => w
  end.

(** [patch.reduce(applyReducer, init)] *)
Fixpoint reduce (patch : list Value) (acc : Value) : Exc Value :=
  match patch with
  | [] => Ok acc
  | operation :: rest =>
      acc' ← applyReducer lib acc operation; reduce rest acc'
  end.

Definition nullish (v : Value) : bool :=
  match v with VUndefined | VNull => true | _ => false end.

(** [createEffect.map((f) => f(patch))] for one recorded call. *)
Definition toEffect (action : Value) (patch : list Value) (c : Capability)
  : Effect :=
  match c with
  | Sync => EffSync patch
  | Delegate override =>
      EffDelegate (if nullish override then action else override)
  end.

Definition wrappedReducer (current : Value * list Effect) (action : Value)
  : Exc (Value * list Effect) :=
  let '(st, _) := current in
  ty ← getProp action "type";
  if strictEq ty (setEvent key) then
    newState ← getProp action "data";
    Ok (newState, [])
  else if strictEq ty (patchEvent key) then
    patch ← getProp action "data";
    match patch with
    | VArr operations =>
        newState ← reduce operations (deepClone lib st);
        Ok (newState, [])
    | _ => Throw TypeError
    end
  else
    match syncedReducer with
    | None => Ok (st, [])
    | Some reducer =>
        p ← reducer st action;
        Ok (newState p, map (toEffect action (patches p)) (calls p))
    end.

(** [dispatch(action)]: the action waits for the next render. *)
Definition dispatch (action : Value) (w : World) : World :=
  MkWorld (session w) (state w) (effects w) (queue w ++ [action]).

(** The conversion of one recorded patch to a standard JSON patch, done by
    the [sync] effect: an array path is joined with slashes and a leading
    slash is added. *)
Definition normalize (p : Value) : Exc Value :=
  path ← getProp p "path";
  let joined :=
    match path with
    | VArr segments =>
        VStr (join "/" (map (fun x => if nullish x then "" else toStr x)
                            segments))
    | _ => path
    end in
  match p, joined with
  | VObj fields, VStr text =>
      Ok (VObj (put "path"
                  (VStr (if String.prefix "/" text then text
                         else "/" ++ text)) fields))
  | _, _ => Throw TypeError
  end.

Fixpoint normalizeAll (patch : list Value) : Exc (list Value) :=
  match patch with
  | [] => Ok []
  | p :: rest => p' ← normalize p; rest' ← normalizeAll rest; Ok (p' :: rest')
  end.

Definition runEffect (f : Effect) (w : World) : Exc World :=
  match f with
  | EffSync [] => Ok w
  | EffSync patch =>
      patch' ← normalizeAll patch; Ok (sendPatch (VArr patch') w)
  | EffDelegate action => Ok (sendAction action w)
  end.

Fixpoint runEffects (fs : list Effect) (w : World) : Exc World :=
  match fs with
  | [] => Ok w
  | f :: rest => w' ← runEffect f w; runEffects rest w'
  end.

Fixpoint reduceQueue (actions : list Value) (current : Value * list Effect)
  : Exc (Value * list Effect) :=
  match actions with
  | [] => Ok current
  | a :: rest => next ← wrappedReducer current a; reduceQueue rest next
  end.

(** One render: the queued actions go through the reducer in order, the
    result is committed, then the effect hook runs the queued effects and
    empties the queue. *)
Definition render (w : World) : Exc World :=
  next ← reduceQueue (queue w) (state w, effects w);
  w' ← runEffects (snd next) (MkWorld (session w) (fst next) (snd next) []);
  Ok (MkWorld (session w') (state w') [] (queue w')).

(** Remote to local. *)
Definition setState (newState : Value) : World -> World :=
  dispatch (VObj [("type", VStr (setEvent key)); ("data", newState)]).
Definition patchState (patch : Value) : World -> World :=
  dispatch (VObj [("type", VStr (patchEvent key)); ("data", patch)]).
Definition actionState (action : Value) : World -> World :=
  dispatch action.

(** The registrations of the mount effect, in order.  The handler of
    [getEvent] closes over the state of the render that ran the effect. *)
Definition registrations (w : World) : list (string * Callback) :=
  [ (getEvent key, CbSendState key (state w));
    (setEvent key, CbSetState key);
    (patchEvent key, CbPatchState key);
    (actionEvent key, CbActionState key) ].

Fixpoint registerAll (regs : list (string * Callback)) (s : Session)
  : Session * option Error :=
  match regs with
  | [] => (s, None)
  | (event, cb) :: rest =>
      match registerEvent event cb s with
      | Ok s' => registerAll rest s'
      | Throw e => (s, Some e)
      end
  end.

(** The effect with dependencies [[session, key]]: it runs when the hook is
    mounted, not when the state changes.  A registration that throws stops
    it; the ones before it stay. *)
Definition mount (w : World) : World * option Error :=
  match session w with
  | None => (w, None)
  | Some s =>
      let '(s1, err) := registerAll (registrations w) s in
      let '(s2, err) :=
        match err with
        | Some e => (s1, Some e)
        | None =>
            if sendOnInit then
              match registerInit key (CbSendState key (state w)) s1 with
              | Ok s' => (s', None)
              | Throw e => (s1, Some e)
              end
            else (s1, None)
        end in
      (MkWorld (Some s2) (state w) (effects w) (queue w), err)
  end.

(** The callbacks of this coordinator, as the session invokes them. *)
Definition runCallback (cb : Callback) (arg : Value) (w : World) : World :=
  match cb with
  | CbSendState k captured =>
      if String.eqb k key then sendState captured w else w
  | CbSetState k => if String.eqb k key then setState arg w else w
  | CbPatchState k => if String.eqb k key then patchState arg w else w
  | CbActionState k => if String.eqb k key then actionState arg w else w
  | CbUser _ => w
  end.

Definition invoked (o : Obs) : option (Callback * Value) :=
  match o with
  | Invoke cb arg => Some (cb, arg)
  | _ => None
  end.

(** A message arrives on socket [id]: the session dispatches it and the
    callback it invoked, if it is one of this coordinator, runs. *)
Definition receive (id : nat) (e : MessageEvent) (w : World) : World :=
  match session w with
  | None => w
  | Some s =>
      let s' := exec (SocketReceives id e) s in
      let fresh := drop (length (log s)) (log s') in
      fold_left (fun acc call => runCallback (fst call) (snd call) acc)
                (omap invoked fresh)
                (MkWorld (Some s') (state w) (effects w) (queue w))
  end.

(** The generated accessors: [set<Attr>] and [sync<Attr>] for each own
    key of the initial state. *)
Definition setters (initialState : Value) : list (string * Accessor) :=
  fold_left (fun acc attr =>
               put ("sync" ++ upper attr) (Syncer attr)
                   (put ("set" ++ upper attr) (Setter attr) acc))
            (map fst (enumerable initialState)) [].

Definition replacePatch (attr : string) (newValue : Value) : Value :=
  VArr [VObj [("op", VStr "replace"); ("path", VStr ("/" ++ attr));
              ("value", newValue)]].

Definition callAccessor (a : Accessor) (newValue : Value) (w : World) : World :=
  match a with
  | Setter attr => patchState (replacePatch attr newValue) w
  | Syncer attr =>
      let patch := replacePatch attr newValue in
      sendPatch patch (patchState patch w)
  end.

(** [stateWithSync[name](newValue)] for a generated accessor. *)
Definition call (initialState : Value) (name : string) (newValue : Value)
    (w : World) : Exc World :=
  match own name (setters initialState) with
  | Some a => Ok (callAccessor a newValue w)
  | None => Throw TypeError
  end.

End Coordinator.

(** ** Observables used in the statements *)

Inductive ConnectionState := Disconnected | Connecting | Connected.

(** The state of the connection as [send] sees it: that of the socket
    [this.ws] names. *)
Definition connectionState (s : Session) : ConnectionState :=
  match wsReadyState s with
  | Some OPEN => Connected
  | Some CONNECTING => Connecting
  | _ => Disconnected
  end.

Definition isWrite (o : Obs) : bool :=
  match o with SendText _ _ | SendBytes _ _ => true | _ => false end.
Definition isToast (o : Obs) : bool :=
  match o with Toast _ _ _ => true | _ => false end.
Definition isNewSocket (o : Obs) : bool :=
  match o with NewSocket _ _ => true | _ => false end.
Definition isSetTimeout (o : Obs) : bool :=
  match o with SetTimeout _ _ => true | _ => false end.

(** The frames written to the transport, the toasts shown, the handler calls
    made and the delays of the retries scheduled, oldest first. *)
Definition writes (l : list Obs) : list Obs := List.filter isWrite l.
Definition toasts (l : list Obs) : list Obs := List.filter isToast l.
Definition handlerCalls (l : list Obs) : list (Callback * Value) :=
  omap invoked l.
Definition scheduledDelays (l : list Obs) : list Z :=
  omap (fun o => match o with SetTimeout _ d => Some d | _ => None end) l.
Definition connectAttempts (l : list Obs) : nat :=
  length (List.filter isNewSocket l).

(** The text frame [{type: "_BIN_META", data: {type: target, metadata}}]. *)
Definition binMeta (target : string) (metadata : Value) : MessageEvent :=
  TextMessage (Some (VObj [("type", VStr "_BIN_META");
                           ("data", VObj [("type", VStr target);
                                          ("metadata", metadata)])])).

(** The text frame [{type: ty, data}]. *)
Definition textFrame (ty : string) (data : Value) : MessageEvent :=
  TextMessage (Some (VObj [("type", VStr ty); ("data", data)])).

(** A session whose socket is open. *)
Definition connectedSession (c : SessionConfig) : Session :=
  run [CallConnect; SocketOpens 0%nat] (newSession c).

(** *** Failed connection attempts *)

(** The transport closes the socket of the attempt in progress. *)
Definition failCurrent (s : Session) : Session :=
  match ws s with
  | Some id => exec (SocketCloses id) s
  | None => s
  end.

(** The timer held in [retryTimeout] fires. *)
Definition fireRetry (s : Session) : Session :=
  match retryTimeout s with
  | Some t => exec (TimerFires t) s
  | None => s
  end.

(** [attempts n s]: [connect()] is called on [s], and [n] times in a row the
    attempt fails and the retry timer starts the next one. *)
Fixpoint attempts (n : nat) (s : Session) : Session :=
  match n with
  | O => connect s
  | S n' => fireRetry (failCurrent (attempts n' s))
  end.

(** The session right after the [k]-th consecutive failed attempt, [k ≥ 1]. *)
Definition afterFailures (k : nat) (s : Session) : Session :=
  failCurrent (attempts (k - 1) s).

(** The bounds of the retry interval. *)
Definition intervalBounded (s : Session) : Prop :=
  (minRetryInterval s ≤ currentRetryInterval s ≤ maxRetryInterval s)%Z.

(** Two sessions with the same configuration. *)
Definition sameConfig (s s' : Session) : Prop :=
  url s' = url s ∧ label s' = label s ∧ toast s' = toast s ∧
  onConnectionChange s' = onConnectionChange s ∧
  minRetryInterval s' = minRetryInterval s ∧
  maxRetryInterval s' = maxRetryInterval s.

(** The delay after [n] doublings of [lo], capped at [hi]. *)
Definition backoff (lo hi : Z) (n : nat) : Z := Z.min (lo * 2 ^ Z.of_nat n) hi.

(** An attempt is in progress after [n] consecutive failures: the socket of
    [this.ws] is connecting, and the [n] closes so far scheduled the retries
    with the delays [backoff 0], ..., [backoff (n - 1)]. *)
Record Attempting (c : SessionConfig) (n : nat) (s : Session) : Prop :=
  MkAttempting {
    at_config : sameConfig (newSession c) s;
    at_interval :
      currentRetryInterval s
      = backoff (cfg_minRetryInterval c) (cfg_maxRetryInterval c) n;
    at_auto : autoReconnect s = true;
    at_flag : isConnected s = false;
    at_socket :
      ∃ id, ws s = Some id ∧
            sockets s !! id = Some (MkSocket CONNECTING true);
    at_delays :
      scheduledDelays (log s)
      = map (backoff (cfg_minRetryInterval c) (cfg_maxRetryInterval c))
            (seq 0 n)
  }.

(** The attempt in progress succeeds. *)
Definition openCurrent (s : Session) : Session :=
  match ws s with
  | Some id => exec (SocketOpens id) s
  | None => s
  end.

(** A new session with the default configuration. *)
Definition localhost : Session := newSession (defaultConfig "ws://localhost").

(** No automatic reconnection and no timer pending. *)
Definition quiescent (s : Session) : Prop :=
  autoReconnect s = false ∧ timers s = [].

(** A patch applied as the specification words it: its operations one after
    the other, each to the document the one before left. *)
Definition applyPatch (lib : PatchLib) (operations : list Value)
    (document : Value) : Exc Value :=
  fold_left (fun acc operation =>
               match acc with
               | Ok doc => applyReducer lib doc operation
               | Throw e => Throw e
               end)
            operations (Ok document).

(** The scenario of the specification: key [counter], initial state
    [{count: 0}], over a session whose socket is open. *)
Definition counterState (n : Z) : Value := VObj [("count", VNum n)].

Definition counterWorld (s : Session) : World :=
  MkWorld (Some s) (counterState 0) [] [].

(** The frame [{type: "_PATCH:counter", data: [{<opKey>: "replace",
    path: "/count", value: 5}]}]. *)
Definition countPatchFrame (opKey : string) : Value :=
  VObj [("type", VStr "_PATCH:counter");
        ("data", VArr [VObj [(opKey, VStr "replace");
                             ("path", VStr "/count");
                             ("value", VNum 5)]])].

(** *** Disciplined use *)

(** The sessions an application reaches when it calls [connect()] only on a
    session that holds no socket: a new one, or one it has disconnected. *)
Inductive Reachable (c : SessionConfig) : Session -> Prop :=
| ReachNew : Reachable c (newSession c)
| ReachStep s i :
    Reachable c s ->
    (i = CallConnect -> ws s = None) ->
    Reachable c (exec i s).

(** What such a session keeps true: the socket of [this.ws] carries the
    closures, every other socket is closed or detached, an open socket means
    the flag is set, and the only timer that can be pending is the one in
    [retryTimeout], set by the close of the current socket. *)
Record Coherent (s : Session) : Prop := MkCoherent {
  co_attached :
    ∀ id, ws s = Some id →
          ∃ r, sockets s !! id = Some (MkSocket r true);
  co_current :
    ∀ id r, sockets s !! id = Some (MkSocket r true) →
            r ≠ CLOSED → ws s = Some id;
  co_flag :
    ∀ id a, ws s = Some id →
            sockets s !! id = Some (MkSocket OPEN a) → isConnected s = true;
  co_timers :
    ∀ p, p ∈ timers s →
         retryTimeout s = Some p.1 ∧
         ∃ id, ws s = Some id ∧ sockets s !! id = Some (MkSocket CLOSED true)
}.

(** * Properties *)

(** ** Values *)

Example toStr_nested :
  toStr (VArr [VNum 1; VNull; VArr [VStr "a"; VNum (-2)]]) = "1,,a,-2".
Proof. reflexivity. Qed.

Example spread_overrides :
  spread [("data", VBin [])] (VObj [("id", VNum 1); ("data", VNum 7)])
  = [("data", VNum 7); ("id", VNum 1)].
Proof. reflexivity. Qed.

Lemma own_put_eq {A} k (v : A) fields : own k (put k v fields) = Some v.
Proof.
  induction fields as [|[k' v'] rest IH]; simpl.
  - by rewrite String.eqb_refl.
  - destruct (String.eqb k k') eqn:E; simpl; rewrite ?E, ?String.eqb_refl; done.
Qed.

Lemma own_put_ne {A} k k' (v : A) fields :
  k ≠ k' → own k (put k' v fields) = own k fields.
Proof.
  intros Hne. induction fields as [|[k2 v2] rest IH]; simpl.
  - destruct (String.eqb_spec k k'); done.
  - destruct (String.eqb_spec k' k2) as [->|]; simpl.
    + destruct (String.eqb_spec k k2); done.
    + destruct (String.eqb_spec k k2); done.
Qed.

Lemma own_put {A} k k' (v : A) fields :
  own k (put k' v fields) = if String.eqb k k' then Some v else own k fields.
Proof.
  destruct (String.eqb_spec k k') as [->|Hne].
  - apply own_put_eq.
  - by apply own_put_ne.
Qed.

(** A spread copies every own key of the source over the target: for a
    source whose keys are distinct, its value wins. *)
Lemma own_fold_put (k : string) (src acc : list (string * Value)) :
  NoDup src.*1 →
  own k (fold_left (fun a kv => put kv.1 kv.2 a) src acc)
  = match own k src with Some v => Some v | None => own k acc end.
Proof.
  revert acc. induction src as [|[k1 v1] rest IH]; intros acc Hnd; simpl.
  - done.
  - apply NoDup_cons in Hnd as [Hnotin Hnd]. rewrite IH by done.
    destruct (String.eqb_spec k k1) as [->|Hne].
    + assert (own k1 rest = None) as ->.
      { clear -Hnotin. induction rest as [|[k2 v2] r IHr]; simpl; [done|].
        destruct (String.eqb_spec k1 k2) as [->|].
        - exfalso. apply Hnotin. simpl. left.
        - apply IHr. intros Hin. apply Hnotin. simpl. by right. }
      apply own_put_eq.
    + destruct (own k rest); [done|]. by apply own_put_ne.
Qed.

Lemma own_spread_object k target fields :
  NoDup fields.*1 →
  own k (spread target (VObj fields))
  = match own k fields with Some v => Some v | None => own k target end.
Proof. apply own_fold_put. Qed.

(** Induction on values through arrays and objects. *)
Lemma Value_nested_ind (P : Value → Prop) :
  P VUndefined → P VNull → (∀ b, P (VBool b)) → (∀ n, P (VNum n)) →
  (∀ s, P (VStr s)) → (∀ payload, P (VBin payload)) →
  (∀ items, Forall P items → P (VArr items)) →
  (∀ fields, Forall (λ kv, P kv.2) fields → P (VObj fields)) →
  ∀ v, P v.
Proof.
  intros Hu Hn Hb Hz Hs Hbin Harr Hobj.
  fix IH 1. intros [| |b|n|s|payload|items|fields];
    [apply Hu|apply Hn|apply Hb|apply Hz|apply Hs|apply Hbin| |].
  - apply Harr. induction items as [|x rest IHrest]; constructor; [apply IH|done].
  - apply Hobj. induction fields as [|[k x] rest IHrest]; constructor;
      [apply IH|done].
Qed.

(** A JSON value is sent as it is: serialising and parsing it back gives the
    same value. *)
Lemma jsonView_isJson v : isJson v = true → jsonView v = v.
Proof.
  induction v as [| | | | | |items IH|fields IH] using Value_nested_ind;
    cbn; try done.
  - intros Hall. f_equal. induction IH as [|x rest Hx _ IHrest]; [done|].
    cbn in Hall. apply andb_prop in Hall as [Hx' Hrest]. cbn.
    by rewrite Hx, IHrest.
  - intros Hall. f_equal. induction IH as [|[k x] rest Hx _ IHrest]; [done|].
    cbn in Hall. apply andb_prop in Hall as [Hx' Hrest]. cbn in *.
    rewrite IHrest by done. rewrite Hx by done. by destruct x.
Qed.

Lemma send_json event data id s :
  openSocket s = Some id → isJson data = true →
  send event data s
  = emit s (SendText id (VObj [("type", VStr event); ("data", data)])).
Proof.
  intros Hopen Hjson. unfold send. rewrite Hopen. do 2 f_equal.
  apply (jsonView_isJson (VObj [("type", VStr event); ("data", data)])).
  cbn. by rewrite Hjson.
Qed.

(** ** The event registry *)

Lemma hasProperty_fresh key (handlers : gmap string Callback) :
  inherited key = false →
  hasProperty key handlers = bool_decide (is_Some (handlers !! key)).
Proof.
  intros Hk. unfold hasProperty. destruct (handlers !! key) eqn:E.
  - symmetry. apply bool_decide_eq_true. eauto.
  - rewrite Hk. symmetry. apply bool_decide_eq_false. by intros [? ?].
Qed.

(** For a key that is not a member of [Object.prototype] the registry keeps
    one owner per key: registering an occupied key and deregistering a free
    one throw, and a key that was released can be taken again. *)
Section RegistryContract.
Variable s : Session.
Variable K : string.
Variables cb cb' : Callback.
Hypothesis fresh : inherited K = false.

Lemma registerEvent_free :
  eventHandlers s !! K = None →
  registerEvent K cb s = Ok (set_eventHandlers s (<[K := cb]> (eventHandlers s))).
Proof. intros H. unfold registerEvent, hasProperty. by rewrite H, fresh. Qed.

Lemma registerEvent_occupied :
  eventHandlers s !! K = Some cb →
  registerEvent K cb' s = Throw (ErrorMsg ("already subscribed to " ++ K)).
Proof. intros H. unfold registerEvent, hasProperty. by rewrite H. Qed.

Lemma deregisterEvent_free :
  eventHandlers s !! K = None →
  deregisterEvent K s = Throw (ErrorMsg ("not subscribed to " ++ K)).
Proof. intros H. unfold deregisterEvent, hasProperty. by rewrite H, fresh. Qed.

Lemma deregisterEvent_occupied :
  eventHandlers s !! K = Some cb →
  deregisterEvent K s = Ok (set_eventHandlers s (delete K (eventHandlers s))).
Proof. intros H. unfold deregisterEvent, hasProperty. by rewrite H. Qed.

Lemma register_deregister_register :
  eventHandlers s !! K = None →
  ∃ s1 s2 s3,
    registerEvent K cb s = Ok s1 ∧
    (∃ e, registerEvent K cb' s1 = Throw e) ∧
    deregisterEvent K s1 = Ok s2 ∧
    (∃ e, deregisterEvent K s2 = Throw e) ∧
    registerEvent K cb' s2 = Ok s3 ∧
    eventHandlers s3 !! K = Some cb'.
Proof.
  intros H.
  set (s1 := set_eventHandlers s (<[K := cb]> (eventHandlers s))).
  set (s2 := set_eventHandlers s1 (delete K (eventHandlers s1))).
  assert (H1 : eventHandlers s1 !! K = Some cb) by apply lookup_insert_eq.
  assert (H2 : eventHandlers s2 !! K = None) by apply lookup_delete_eq.
  exists s1, s2, (set_eventHandlers s2 (<[K := cb']> (eventHandlers s2))).
  unfold registerEvent, deregisterEvent, hasProperty.
  rewrite H, H1, H2, fresh. simpl.
  repeat split; eauto. apply lookup_insert_eq.
Qed.
End RegistryContract.

(** C4: the uniqueness contract of [registerEvent]/[deregisterEvent] does not
    hold for every key.  On a new session, whose registry is empty,
    [registerEvent("toString", cb)] throws [already subscribed to toString],
    as it does on every session, and [deregisterEvent("toString")] returns
    normally although nothing was registered: the [in] test also sees what
    the table inherits. *)
Theorem registry_inherited_key (c : SessionConfig) (s : Session)
    (cb : Callback) :
  eventHandlers (newSession c) !! "toString" = None ∧
  registerEvent "toString" cb (newSession c)
    = Throw (ErrorMsg "already subscribed to toString") ∧
  registerEvent "toString" cb s
    = Throw (ErrorMsg "already subscribed to toString") ∧
  deregisterEvent "toString" (newSession c) = Ok (newSession c).
Proof.
  repeat split. unfold registerEvent, hasProperty.
  by destruct (eventHandlers s !! "toString").
Qed.

(** ** Pairing a binary frame with its metadata *)

Lemma handlerCalls_app l1 l2 :
  handlerCalls (l1 ++ l2) = handlerCalls l1 ++ handlerCalls l2.
Proof. apply omap_app. Qed.

(** [_BIN_META] fills the slot, whatever it held. *)
Lemma receive_binMeta target metadata s :
  ∃ s1, handleReceiveEvent (binMeta target metadata) s = Ok s1 ∧
        binData s1 = VObj [("type", VStr target); ("metadata", metadata)] ∧
        eventHandlers s1 = eventHandlers s ∧
        binaryHandler s1 = binaryHandler s ∧
        handlerCalls (log s1) = handlerCalls (log s).
Proof.
  cbn. destruct (isNull (binData s)); eexists; (split; [reflexivity|]); cbn;
    repeat split.
  rewrite handlerCalls_app. cbn. apply app_nil_r.
Qed.

(** A binary frame with the slot filled for a registered target. *)
Lemma receive_paired target metadata payload cb s :
  binData s = VObj [("type", VStr target); ("metadata", metadata)] →
  eventHandlers s !! target = Some cb →
  handleReceiveEvent (BinaryMessage payload) s
  = Ok (set_binData
          (emit s (Invoke cb (VObj (spread [("data", VBin payload)] metadata))))
          VNull).
Proof.
  intros Hbin Hcb. unfold handleReceiveEvent. rewrite Hbin. cbn.
  unfold hasProperty, callMember. rewrite Hcb. reflexivity.
Qed.

(** C3: [_BIN_META] for target T with metadata [{id: 1}] followed by a binary
    frame B calls the handler registered under T exactly once, with
    [{data: B, id: 1}], and empties the slot; a binary frame that finds the
    slot empty and no catch-all handler calls no handler and is logged. *)
Theorem binary_pairing (s s0 : Session) (cb : Callback) (B : list Byte.byte) :
  eventHandlers s !! "T" = Some cb →
  binData s0 = VNull →
  binaryHandler s0 = None →
  (∃ s1 s2,
     handleReceiveEvent (binMeta "T" (VObj [("id", VNum 1)])) s = Ok s1 ∧
     handleReceiveEvent (BinaryMessage B) s1 = Ok s2 ∧
     handlerCalls (log s2)
       = handlerCalls (log s)
         ++ [(cb, VObj [("data", VBin B); ("id", VNum 1)])] ∧
     binData s2 = VNull) ∧
  (∃ s', handleReceiveEvent (BinaryMessage B) s0 = Ok s' ∧
         handlerCalls (log s') = handlerCalls (log s0) ∧
         log s' = log s0 ++ [ConsoleLog "unhandled binary message"]).
Proof.
  intros Hcb Hnull Hnone. split.
  - destruct (receive_binMeta "T" (VObj [("id", VNum 1)]) s)
      as (s1 & Hrecv & Hbin & Hh & _ & Hcalls).
    exists s1. eexists. split; [exact Hrecv|]. split.
    + apply (receive_paired "T" (VObj [("id", VNum 1)]) B cb s1 Hbin).
      by rewrite Hh.
    + cbn. rewrite handlerCalls_app, Hcalls. done.
  - unfold handleReceiveEvent. rewrite Hnull, Hnone. cbn.
    eexists. split; [reflexivity|]. cbn. split; [|done].
    rewrite handlerCalls_app. cbn. apply app_nil_r.
Qed.

(** ** The spread of the metadata over the payload *)

Arguments spread : simpl never.

(** The argument the paired handler receives carries, under every key of a
    metadata object, the metadata's value; under [data] it carries the raw
    payload only when the metadata has no [data] key. *)
Lemma paired_argument_key k payload (fields : list (string * Value)) :
  NoDup fields.*1 →
  own k (spread [("data", VBin payload)] (VObj fields))
  = match own k fields with
    | Some v => Some v
    | None => if String.eqb k "data" then Some (VBin payload) else None
    end.
Proof. intros Hnd. rewrite own_spread_object by done. reflexivity. Qed.

Lemma isJson_own k fields v :
  isJson (VObj fields) = true → own k fields = Some v → isJson v = true.
Proof.
  cbn. induction fields as [|[k' v'] rest IH]; cbn; [done|].
  intros [Hv Hrest]%andb_prop. destruct (String.eqb k k'); [|by auto].
  by intros [= <-].
Qed.

(** Metadata with its own [data] key hides the bytes from the handler. *)
Lemma paired_data_overridden target fields v payload cb s :
  NoDup fields.*1 →
  isJson (VObj fields) = true →
  own "data" fields = Some v →
  eventHandlers s !! target = Some cb →
  ∃ s1 s2 arg,
    handleReceiveEvent (binMeta target (VObj fields)) s = Ok s1 ∧
    handleReceiveEvent (BinaryMessage payload) s1 = Ok s2 ∧
    handlerCalls (log s2) = handlerCalls (log s) ++ [(cb, VObj arg)] ∧
    own "data" arg = Some v ∧ v ≠ VBin payload ∧
    binData s2 = VNull.
Proof.
  intros Hnd Hjson Hdata Hcb.
  destruct (receive_binMeta target (VObj fields) s)
    as (s1 & Hrecv & Hbin & Hh & _ & Hcalls).
  exists s1. eexists. eexists. split; [exact Hrecv|]. split.
  { apply (receive_paired target (VObj fields) payload cb s1 Hbin).
    by rewrite Hh. }
  cbn. rewrite handlerCalls_app, Hcalls. split; [reflexivity|].
  split; [by rewrite paired_argument_key, Hdata|]. split; [|done].
  intros ->. by apply (isJson_own "data" fields _ Hjson) in Hdata.
Qed.

(** A slot whose target is neither registered nor inherited: the frame is
    logged and dropped, the catch-all handler is not called, and the slot is
    emptied. *)
Lemma paired_without_handler target metadata payload s :
  binData s = VObj [("type", VStr target); ("metadata", metadata)] →
  eventHandlers s !! target = None →
  inherited target = false →
  handleReceiveEvent (BinaryMessage payload) s
  = Ok (set_binData
          (emit s (ConsoleLog ("no handler for binary event: " ++ target)))
          VNull).
Proof.
  intros Hbin Hnone Hfresh. unfold handleReceiveEvent. rewrite Hbin. cbn.
  unfold hasProperty. rewrite Hnone, Hfresh. reflexivity.
Qed.

(** C10: a slot whose target names an inherited member that is not a function
    is not handled as an unregistered target.  After [_BIN_META] with target
    [__proto__], for which no handler is registered, the binary frame makes
    [handleReceiveEvent] throw: nothing is logged and the slot stays full. *)
Theorem binary_target_inherited (c : SessionConfig) (B : list Byte.byte) :
  let s1 := exec (SocketReceives 0 (binMeta "__proto__" (VObj [])))
                 (connectedSession c) in
  eventHandlers s1 !! "__proto__" = None ∧
  handleReceiveEvent (BinaryMessage B) s1 = Throw TypeError ∧
  binData (exec (SocketReceives 0 (BinaryMessage B)) s1)
  = VObj [("type", VStr "__proto__"); ("metadata", VObj [])].
Proof. destruct c as [u l [] lo hi []]; repeat split; reflexivity. Qed.

(** ** Sending while not connected *)

Lemma openSocket_not_connected s :
  connectionState s ≠ Connected → openSocket s = None.
Proof.
  unfold connectionState, openSocket.
  destruct (wsReadyState s) as [[]|]; congruence.
Qed.

Lemma writes_app l1 l2 : writes (l1 ++ l2) = writes l1 ++ writes l2.
Proof. apply List.filter_app. Qed.

Lemma toasts_app l1 l2 : toasts (l1 ++ l2) = toasts l1 ++ toasts l2.
Proof. apply List.filter_app. Qed.

(** C5: [send] and [sendBinary] on a session that is not connected write
    nothing to the transport and make one call of the sink, [toast.error];
    the session is otherwise unchanged, so the message is kept nowhere and
    nothing is scheduled. *)
Theorem send_not_connected (s : Session) (event : string)
    (data metadata : Value) (bytes : list Byte.byte) :
  connectionState s ≠ Connected →
  toast s = true →
  let report := Toast TError (MsgNotConnected (label s)) None in
  let after_send := send event data s in
  let after_sendBinary := sendBinary event metadata bytes s in
  after_send = emit s report ∧
  after_sendBinary = emit s report ∧
  writes (log after_send) = writes (log s) ∧
  writes (log after_sendBinary) = writes (log s) ∧
  toasts (log after_send) = toasts (log s) ++ [report] ∧
  toasts (log after_sendBinary) = toasts (log s) ++ [report].
Proof.
  intros Hstate Htoast. cbn zeta.
  unfold send, sendBinary, notify.
  rewrite (openSocket_not_connected s Hstate), Htoast. cbn.
  rewrite writes_app, toasts_app. cbn. rewrite app_nil_r. done.
Qed.

(** Without a sink the same calls do nothing at all. *)
Lemma send_not_connected_silent s event data :
  connectionState s ≠ Connected → toast s = false → send event data s = s.
Proof.
  intros Hstate Htoast. unfold send, notify.
  by rewrite (openSocket_not_connected s Hstate), Htoast.
Qed.

(** ** The retry interval *)

Ltac crunch :=
  repeat first
    [ progress cbn in *
    | progress simplify_eq
    | case_match ].

Lemma handleReceiveEvent_interval e s s' :
  handleReceiveEvent e s = Ok s' →
  sameConfig s s' ∧ currentRetryInterval s' = currentRetryInterval s.
Proof.
  unfold handleReceiveEvent, callMember, disconnect, notify, observe, wsClose,
    clearTimeout, sameConfig, mbind, exc_bind, bind.
  intros H. crunch; done.
Qed.

Lemma sameConfig_refl s : sameConfig s s.
Proof. by repeat split. Qed.

Lemma sameConfig_trans s1 s2 s3 :
  sameConfig s1 s2 → sameConfig s2 s3 → sameConfig s1 s3.
Proof.
  intros (? & ? & ? & ? & ? & ?) (? & ? & ? & ? & ? & ?).
  repeat split; congruence.
Qed.

Lemma onopen_resets s : currentRetryInterval (onopen s) = minRetryInterval s.
Proof. unfold onopen, notify, observe. crunch; done. Qed.

Lemma onclose_interval s :
  autoReconnect s = true →
  currentRetryInterval (onclose s)
  = Z.min (currentRetryInterval s * 2) (maxRetryInterval s).
Proof.
  intros H. unfold onclose, notify, observe, setTimeout.
  crunch; congruence.
Qed.

(** Every step keeps the configuration, and keeps the interval within its
    bounds when the bounds are ordered and not negative. *)
Lemma exec_interval i s :
  (0 ≤ minRetryInterval s ≤ maxRetryInterval s)%Z →
  intervalBounded s →
  sameConfig s (exec i s) ∧ intervalBounded (exec i s).
Proof.
  intros Hcfg Hb. unfold intervalBounded in *.
  destruct i;
    try solve
      [ unfold exec, connect, disconnect, send, sendBinary, registerEvent,
          deregisterEvent, registerInit, deregisterInit, registerBinary,
          deregisterBinary, onopen, onclose, onerror, retry, connect, notify,
          observe, wsClose, clearTimeout, setTimeout, setReadyState, settle,
          sameConfig in *;
        crunch; destruct_and?; repeat split; try congruence; try lia ].
  assert (Hsame : sameConfig s s ∧
                  (minRetryInterval s ≤ currentRetryInterval s
                   ≤ maxRetryInterval s)%Z)
    by (split; [apply sameConfig_refl | done]).
  cbn. repeat case_match; try exact Hsame.
  destruct (handleReceiveEvent e s) as [s'|] eqn:Hrecv; [|exact Hsame].
  apply handleReceiveEvent_interval in Hrecv as [Hc Hi]. cbn.
  split; [exact Hc|]. destruct Hc as (_ & _ & _ & _ & -> & ->). lia.
Qed.

Lemma run_interval inputs s :
  (0 ≤ minRetryInterval s ≤ maxRetryInterval s)%Z →
  intervalBounded s →
  sameConfig s (run inputs s) ∧ intervalBounded (run inputs s).
Proof.
  revert s. induction inputs as [|i rest IH]; intros s Hcfg Hb; cbn.
  - split; [apply sameConfig_refl | done].
  - destruct (exec_interval i s Hcfg Hb) as [Hc Hb'].
    destruct (IH (exec i s)) as [Hc' Hb'']; [|done|].
    + destruct Hc as (_ & _ & _ & _ & -> & ->). done.
    + split; [by eapply sameConfig_trans | done].
Qed.

(** ** Exponential backoff *)

Lemma scheduledDelays_app l1 l2 :
  scheduledDelays (l1 ++ l2) = scheduledDelays l1 ++ scheduledDelays l2.
Proof. apply omap_app. Qed.

Lemma backoff_succ lo hi n :
  (0 ≤ hi)%Z → Z.min (backoff lo hi n * 2) hi = backoff lo hi (S n).
Proof.
  intros Hhi. unfold backoff.
  rewrite Nat2Z.inj_succ, Z.pow_succ_r by lia. lia.
Qed.

Lemma scheduledDelays_notify kind msg d s :
  scheduledDelays (log (notify kind msg d s)) = scheduledDelays (log s).
Proof.
  unfold notify. destruct (toast s); [|done]. cbn.
  rewrite scheduledDelays_app. cbn. apply app_nil_r.
Qed.

Lemma scheduledDelays_observe b s :
  scheduledDelays (log (observe b s)) = scheduledDelays (log s).
Proof.
  unfold observe. destruct (onConnectionChange s); [|done]. cbn.
  rewrite scheduledDelays_app. cbn. apply app_nil_r.
Qed.

(** What a close does to a session that reconnects automatically. *)
Lemma onclose_retrying s :
  autoReconnect s = true →
  let s' := onclose s in
  sameConfig s s' ∧
  currentRetryInterval s'
  = Z.min (currentRetryInterval s * 2) (maxRetryInterval s) ∧
  autoReconnect s' = true ∧ isConnected s' = false ∧
  ws s' = ws s ∧ sockets s' = sockets s ∧
  retryTimeout s' = Some (nextTimer s) ∧
  timers s' = timers s ++ [(nextTimer s, currentRetryInterval s)] ∧
  scheduledDelays (log s')
  = scheduledDelays (log s) ++ [currentRetryInterval s].
Proof.
  intros Hauto. cbn zeta. unfold onclose, setTimeout.
  set (s1 := observe _ _).
  assert (Hs1 : autoReconnect s1 = true ∧ sameConfig s s1 ∧
                currentRetryInterval s1 = currentRetryInterval s ∧
                isConnected s1 = false ∧ ws s1 = ws s ∧
                sockets s1 = sockets s ∧ nextTimer s1 = nextTimer s ∧
                timers s1 = timers s ∧
                scheduledDelays (log s1) = scheduledDelays (log s)).
  { subst s1. rewrite scheduledDelays_observe. unfold observe, sameConfig.
    cbn. destruct (onConnectionChange s) eqn:E; cbn; by repeat split. }
  clearbody s1. destruct Hs1 as (Ha & Hc & Hi & Hf & Hw & Hso & Hn & Ht & Hd).
  rewrite Ha.
  set (s2 := notify _ _ _ _).
  assert (Hs2 : sameConfig s s2 ∧
                currentRetryInterval s2 = currentRetryInterval s ∧
                autoReconnect s2 = true ∧
                isConnected s2 = false ∧ ws s2 = ws s ∧
                sockets s2 = sockets s ∧ nextTimer s2 = nextTimer s ∧
                timers s2 = timers s ∧
                scheduledDelays (log s2) = scheduledDelays (log s)).
  { subst s2. rewrite scheduledDelays_notify. unfold notify, sameConfig in *.
    destruct (toast s1) eqn:E; cbn; destruct_and?; repeat split; congruence. }
  clearbody s2. clear dependent s1.
  destruct Hs2 as (Hc & Hi & Ha & Hf & Hw & Hso & Hn & Ht & Hd).
  cbn. rewrite scheduledDelays_app, Hd, Hi, Hn, Ht. cbn.
  unfold sameConfig in *. cbn. destruct_and?. repeat split; congruence.
Qed.

(** The attempt in progress fails: the close schedules the retry with the
    current delay and then doubles it. *)
Lemma failCurrent_attempting c n s :
  (0 ≤ cfg_maxRetryInterval c)%Z →
  Attempting c n s →
  let s' := failCurrent s in
  sameConfig (newSession c) s' ∧
  currentRetryInterval s'
  = backoff (cfg_minRetryInterval c) (cfg_maxRetryInterval c) (S n) ∧
  autoReconnect s' = true ∧ isConnected s' = false ∧
  (∃ t, retryTimeout s' = Some t ∧
        existsb (fun p => Nat.eqb (fst p) t) (timers s') = true) ∧
  scheduledDelays (log s')
  = map (backoff (cfg_minRetryInterval c) (cfg_maxRetryInterval c))
        (seq 0 (S n)).
Proof.
  intros Hhi [Hc Hi Ha Hf (id & Hws & Hsock) Hd]. cbn zeta.
  rewrite seq_S, map_app. unfold failCurrent. rewrite Hws. cbn. rewrite Hsock.
  set (s1 := setReadyState id CLOSED s).
  destruct (onclose_retrying s1 Ha) as (Hc' & Hi' & Ha' & Hf' & _ & _ & Ht & Hts & Hd').
  split; [by eapply sameConfig_trans|]. split.
  { rewrite Hi'. cbn. rewrite Hi. destruct Hc as (_ & _ & _ & _ & _ & ->). cbn.
    by apply backoff_succ. }
  split; [done|]. split; [done|]. split.
  { eexists. split; [exact Ht|]. rewrite Hts, existsb_app. cbn.
    rewrite Nat.eqb_refl. cbn. apply orb_true_r. }
  rewrite Hd'. change (log s1) with (log s).
  change (currentRetryInterval s1) with (currentRetryInterval s).
  rewrite Hd, Hi. done.
Qed.

(** The retry fires while the session is still disconnected: it connects. *)
Lemma fireRetry_attempting c n s :
  cfg_url c ≠ "" →
  sameConfig (newSession c) s →
  currentRetryInterval s
  = backoff (cfg_minRetryInterval c) (cfg_maxRetryInterval c) n →
  isConnected s = false →
  (∃ t, retryTimeout s = Some t ∧
        existsb (fun p => Nat.eqb (fst p) t) (timers s) = true) →
  scheduledDelays (log s)
  = map (backoff (cfg_minRetryInterval c) (cfg_maxRetryInterval c)) (seq 0 n) →
  Attempting c n (fireRetry s).
Proof.
  intros Hurl Hc Hi Hf (t & Ht & Hin) Hd.
  unfold fireRetry. rewrite Ht. cbn. rewrite Hin.
  unfold retry. cbn. rewrite Hf.
  assert (String.eqb (url s) "" = false) as ->.
  { apply String.eqb_neq. destruct Hc as (-> & _). done. }
  cbn. unfold connect.
  set (s1 := notify _ _ _ _).
  assert (Hs1 : sameConfig s s1 ∧ currentRetryInterval s1 = currentRetryInterval s ∧
                isConnected s1 = false ∧
                scheduledDelays (log s1) = scheduledDelays (log s)).
  { subst s1. rewrite scheduledDelays_notify. unfold notify, sameConfig.
    destruct (toast _) eqn:E; cbn in *; repeat split; congruence. }
  clearbody s1. destruct Hs1 as (Hc1 & Hi1 & Hf1 & Hd1).
  split; cbn.
  - eapply sameConfig_trans; [exact Hc|]. unfold sameConfig in *. cbn.
    destruct_and?. repeat split; congruence.
  - congruence.
  - done.
  - done.
  - eexists. split; [reflexivity|]. apply list_lookup_middle. done.
  - rewrite scheduledDelays_app. cbn. rewrite app_nil_r. congruence.
Qed.

Lemma connect_attempting c :
  (cfg_minRetryInterval c ≤ cfg_maxRetryInterval c)%Z →
  Attempting c 0 (connect (newSession c)).
Proof.
  intros Hle. unfold connect, notify. destruct c as [u l t lo hi o].
  split; cbn in *; destruct t; cbn; unfold backoff, sameConfig; cbn;
    rewrite ?Z.mul_1_r; try done; try (by eexists); lia.
Qed.

(** While every attempt fails, the session keeps attempting. *)
Lemma attempts_attempting c n :
  cfg_url c ≠ "" →
  (0 ≤ cfg_maxRetryInterval c)%Z →
  (cfg_minRetryInterval c ≤ cfg_maxRetryInterval c)%Z →
  Attempting c n (attempts n (newSession c)).
Proof.
  intros Hurl Hhi Hle. induction n as [|n IH]; cbn.
  - by apply connect_attempting.
  - destruct (failCurrent_attempting c n _ Hhi IH)
      as (Hc & Hi & _ & Hf & Ht & Hd).
    by apply fireRetry_attempting.
Qed.

Lemma openCurrent_attempting c n s :
  Attempting c n s →
  currentRetryInterval (openCurrent s) = cfg_minRetryInterval c ∧
  isConnected (openCurrent s) = true.
Proof.
  intros [Hc _ _ _ (id & Hws & Hsock) _]. unfold openCurrent.
  rewrite Hws. cbn. rewrite Hsock. rewrite onopen_resets. cbn.
  destruct Hc as (_ & _ & _ & _ & -> & _). split; [done|].
  unfold onopen, notify, observe. crunch; done.
Qed.

(** C1 (amended): with [minRetryInterval = 250] and [maxRetryInterval = 10000],
    the [i]-th consecutive failed attempt ([i ≥ 1]) schedules its retry after
    [min(250 * 2^(i-1), 10000)], so the [k]-th one after
    [min(250 * 2^(k-1), 10000)], and leaves [currentRetryInterval] at
    [min(250 * 2^k, 10000)]; a successful connect ([onopen]) sets it back to
    250; and it stays between 250 and 10000 whatever happens to the
    session. *)
Theorem backoff_law (c : SessionConfig) (k : nat) :
  cfg_url c ≠ "" →
  cfg_minRetryInterval c = 250 →
  cfg_maxRetryInterval c = 10000 →
  (1 ≤ k)%nat →
  let s := afterFailures k (newSession c) in
  scheduledDelays (log s)
  = map (fun i => Z.min (250 * 2 ^ Z.of_nat i) 10000) (seq 0 k) ∧
  last (scheduledDelays (log s))
  = Some (Z.min (250 * 2 ^ (Z.of_nat k - 1)) 10000) ∧
  currentRetryInterval s = Z.min (250 * 2 ^ Z.of_nat k) 10000 ∧
  currentRetryInterval (openCurrent (fireRetry s)) = 250 ∧
  (∀ s', currentRetryInterval (onopen s') = minRetryInterval s') ∧
  (∀ inputs,
     250 ≤ currentRetryInterval (run inputs (newSession c)) ≤ 10000)%Z.
Proof.
  intros Hurl Hlo Hhi Hk. cbn zeta. unfold afterFailures.
  destruct k as [|n]; [lia|]. replace (S n - 1)%nat with n by lia.
  assert (Hatt := attempts_attempting c n Hurl).
  rewrite Hlo, Hhi in Hatt. specialize (Hatt ltac:(lia) ltac:(lia)).
  assert (Hfail := failCurrent_attempting c n _ ltac:(lia) Hatt).
  cbn zeta in Hfail. rewrite Hlo, Hhi in Hfail.
  destruct Hfail as (Hc & Hi & Ha & Hf & Ht & Hd).
  split; [exact Hd|]. split.
  { rewrite Hd, seq_S, map_app. cbn [map]. rewrite last_snoc. cbn.
    by replace (Z.of_nat (S n) - 1)%Z with (Z.of_nat n) by lia. }
  split; [exact Hi|]. split.
  { assert (Hnext : Attempting c (S n) (fireRetry (failCurrent (attempts n (newSession c))))).
    { apply fireRetry_attempting; rewrite ?Hlo, ?Hhi; done. }
    apply openCurrent_attempting in Hnext as [-> _]. done. }
  split; [apply onopen_resets|].
  intros inputs.
  destruct (run_interval inputs (newSession c)) as [Hcfg Hb].
  - cbn. lia.
  - unfold intervalBounded. cbn. lia.
  - unfold intervalBounded in Hb. destruct Hcfg as (_ & _ & _ & _ & Hmin & Hmax).
    cbn in Hmin, Hmax. lia.
Qed.

(** Three failed attempts with the default configuration. *)
Lemma backoff_law_witness :
  let s := afterFailures 3 (newSession (defaultConfig "ws://localhost")) in
  scheduledDelays (log s) = [250; 500; 1000] ∧
  currentRetryInterval s = 2000.
Proof.
  destruct (backoff_law (defaultConfig "ws://localhost") 3)
    as (H1 & _ & H3 & _).
  - discriminate.
  - reflexivity.
  - reflexivity.
  - lia.
  - split; [exact H1 | exact H3].
Defined.

(** C1 as stated fails: after the first failed attempt the retry is scheduled
    after 250, not after [min(250 * 2^1, 10000) = 500]. *)
Lemma backoff_claimed_delay_fails :
  ¬ (∀ k : nat, (1 ≤ k)%nat →
       last (scheduledDelays
               (log (afterFailures k (newSession (defaultConfig "ws://localhost")))))
       = Some (Z.min (250 * 2 ^ Z.of_nat k) 10000)).
Proof.
  intros H. specialize (H 1%nat (le_n 1)). vm_compute in H. discriminate.
Qed.

(** ** The retry callback *)

Lemma connectAttempts_app l1 l2 :
  connectAttempts (l1 ++ l2) = (connectAttempts l1 + connectAttempts l2)%nat.
Proof. unfold connectAttempts. by rewrite List.filter_app, length_app. Qed.

Lemma connectAttempts_notify kind msg d s :
  connectAttempts (log (notify kind msg d s)) = connectAttempts (log s).
Proof.
  unfold notify. destruct (toast s); [|done]. cbn [log emit].
  rewrite connectAttempts_app. cbn. lia.
Qed.

Lemma connect_attempt s :
  connectAttempts (log (connect s)) = S (connectAttempts (log s)) ∧
  ws (connect s) = Some (length (sockets s)) ∧
  sockets (connect s) = sockets s ++ [MkSocket CONNECTING true].
Proof.
  unfold connect. set (s1 := notify _ _ _ _).
  assert (Hs1 : connectAttempts (log s1) = connectAttempts (log s) ∧
                sockets s1 = sockets s).
  { subst s1. rewrite connectAttempts_notify. unfold notify.
    by destruct (toast s). }
  clearbody s1. destruct Hs1 as [Hn Hs].
  cbn [log emit set_autoReconnect set_ws set_sockets ws sockets].
  rewrite connectAttempts_app, Hn, Hs. cbn. split; [lia|done].
Qed.

(** C9 (amended): the retry callback looks at [isConnected] before it calls
    [connect()].  When the flag is set (the session was connected during the
    wait) the timer fire opens no socket and leaves [this.ws] alone; when the
    flag is clear and the url is not empty it calls [connect()], whether or
    not another attempt is already in progress. *)
Theorem retry_guard (s s2 : Session) (t : nat) :
  isConnected s = true →
  existsb (fun p => Nat.eqb (fst p) t) (timers s2) = true →
  isConnected s2 = false →
  url s2 ≠ "" →
  (log (exec (TimerFires t) s) = log s ∧
   ws (exec (TimerFires t) s) = ws s ∧
   sockets (exec (TimerFires t) s) = sockets s ∧
   connectAttempts (log (exec (TimerFires t) s)) = connectAttempts (log s)) ∧
  (connectAttempts (log (exec (TimerFires t) s2))
   = S (connectAttempts (log s2)) ∧
   ws (exec (TimerFires t) s2) = Some (length (sockets s2)) ∧
   sockets (exec (TimerFires t) s2)
   = sockets s2 ++ [MkSocket CONNECTING true]).
Proof.
  intros Hconn Hpending Hflag Hurl. split.
  - cbn. destruct (existsb _ (timers s)); [|done].
    unfold retry. cbn. rewrite Hconn, andb_false_r. done.
  - unfold exec. rewrite Hpending. unfold retry.
    cbn [url isConnected set_timers]. rewrite Hflag.
    apply String.eqb_neq in Hurl as ->. cbn [negb andb].
    apply (connect_attempt (set_timers s2 _ _)).
Qed.

(** The timer of a failed attempt fires after a manual reconnect has opened,
    and fires with no reconnect at all. *)
Lemma retry_guard_witness :
  let s := run [CallConnect; SocketCloses 0%nat; CallConnect; SocketOpens 1%nat] localhost in
  let s2 := run [CallConnect; SocketCloses 0%nat] localhost in
  connectAttempts (log (exec (TimerFires 0) s)) = 2%nat ∧
  connectAttempts (log (exec (TimerFires 0) s2)) = 2%nat.
Proof.
  destruct (retry_guard
              (run [CallConnect; SocketCloses 0%nat; CallConnect; SocketOpens 1%nat] localhost)
              (run [CallConnect; SocketCloses 0%nat] localhost) 0%nat)
    as [(_ & _ & _ & H1) (H2 & _)].
  - reflexivity.
  - reflexivity.
  - reflexivity.
  - discriminate.
  - split; [exact H1 | exact H2].
Defined.

(** C9 as stated fails: the first attempt fails and schedules timer 0, the
    application calls [connect()] by hand, and the timer fires while that
    socket is still connecting; the callback connects once more. *)
Lemma manual_reconnect_race :
  ¬ (∀ (inputs : list Input) (t : nat),
       let s := run inputs localhost in
       connectionState s ≠ Disconnected →
       connectAttempts (log (exec (TimerFires t) s)) = connectAttempts (log s)).
Proof.
  intros H.
  specialize (H [CallConnect; SocketCloses 0%nat; CallConnect] 0%nat).
  cbn zeta in H. vm_compute in H. specialize (H ltac:(discriminate)).
  discriminate.
Qed.
(** ** A disconnect requested by the server *)

Ltac crunch_log :=
  repeat first
    [ progress cbn -[scheduledDelays connectAttempts toasts] in *
    | progress simplify_eq
    | case_match ].

Ltac count_log :=
  rewrite ?scheduledDelays_app, ?connectAttempts_app, ?toasts_app;
  unfold scheduledDelays, connectAttempts, toasts; cbn;
  rewrite ?app_nil_r; try lia; try done.

Lemma disconnect_quiescent s :
  (∀ p, p ∈ timers s → retryTimeout s = Some p.1) →
  let s' := disconnect s in
  quiescent s' ∧ ws s' = None ∧ retryTimeout s' = None ∧
  sameConfig s s' ∧
  isConnected s' = isConnected s ∧
  toasts (log s') = toasts (log s) ∧
  scheduledDelays (log s') = scheduledDelays (log s) ∧
  connectAttempts (log s') = connectAttempts (log s).
Proof.
  intros Hsingle. cbn zeta.
  assert (Htimers : ∀ t, retryTimeout s = Some t →
                         filter (λ p : nat * Z, p.1 ≠ t) (timers s) = []).
  { intros t Ht. induction (timers s) as [|p rest IH]; [done|].
    rewrite filter_cons. assert (p.1 = t) as Hp.
    { specialize (Hsingle p ltac:(left)). congruence. }
    rewrite decide_False by (intros Hne; by apply Hne).
    apply IH. intros q Hq. apply Hsingle. by right. }
  assert (Hnone : retryTimeout s = None → timers s = []).
  { intros Hnone. destruct (timers s) as [|p rest]; [done|].
    specialize (Hsingle p ltac:(left)). congruence. }
  unfold disconnect, wsClose, observe, clearTimeout, quiescent, sameConfig.
  crunch_log; rewrite ?Htimers by done; rewrite ?Hnone by done;
    repeat split; try congruence; count_log.
Qed.

Lemma handleReceiveEvent_quiet e s s' :
  handleReceiveEvent e s = Ok s' →
  quiescent s →
  quiescent s' ∧
  scheduledDelays (log s') = scheduledDelays (log s) ∧
  connectAttempts (log s') = connectAttempts (log s).
Proof.
  unfold handleReceiveEvent, callMember, disconnect, notify, observe, wsClose,
    clearTimeout, quiescent, mbind, exc_bind, bind.
  intros H [Ha Ht]. crunch_log; rewrite ?Ht; repeat split; try congruence;
    count_log.
Qed.

(** Once quiescent, a session stays so under everything except [connect()],
    and neither schedules a retry nor opens a socket. *)
Lemma exec_quiet i s :
  i ≠ CallConnect →
  quiescent s →
  quiescent (exec i s) ∧
  scheduledDelays (log (exec i s)) = scheduledDelays (log s) ∧
  connectAttempts (log (exec i s)) = connectAttempts (log s).
Proof.
  intros Hi Hq.
  destruct i; try done;
    try solve
      [ destruct Hq as [Ha Ht];
        unfold exec, disconnect, send, sendBinary, registerEvent,
          deregisterEvent, registerInit, deregisterInit, registerBinary,
          deregisterBinary, onopen, onclose, onerror, retry, notify,
          observe, wsClose, clearTimeout, setTimeout, setReadyState, settle,
          quiescent in *;
        crunch_log; rewrite ?Ht; repeat split; try congruence; count_log ].
  - cbn. repeat case_match; try done.
    destruct (handleReceiveEvent e s) as [s'|] eqn:Hrecv; [|done].
    by apply handleReceiveEvent_quiet in Hrecv.
  - destruct Hq as [Ha Ht]. unfold exec. rewrite Ht. done.
Qed.

Lemma run_quiet inputs s :
  CallConnect ∉ inputs →
  quiescent s →
  quiescent (run inputs s) ∧
  scheduledDelays (log (run inputs s)) = scheduledDelays (log s) ∧
  connectAttempts (log (run inputs s)) = connectAttempts (log s).
Proof.
  revert s. induction inputs as [|i rest IH]; intros s Hnot Hq; [done|].
  apply not_elem_of_cons in Hnot as [Hi Hrest].
  destruct (exec_quiet i s) as (Hq' & Hd & Hn); [done..|].
  destruct (IH (exec i s) Hrest Hq') as (Hq'' & Hd' & Hn').
  change (run (i :: rest) s) with (run rest (exec i s)).
  repeat split; [apply Hq''.. | congruence | congruence].
Qed.

(** What [_DISCONNECT] does to the transport and the retry policy: the socket
    is dropped, automatic reconnection is off and stays off until [connect()]
    is called (no retry is scheduled and no socket is opened meanwhile), and
    the sink gets one [loading] toast with the reason, lasting 10000000 ms.
    The second hypothesis excludes timers leaked by overlapping attempts. *)
Lemma server_disconnect (s : Session) (reason : Value) (inputs : list Input) :
  toast s = true →
  (∀ p, p ∈ timers s → retryTimeout s = Some p.1) →
  CallConnect ∉ inputs →
  ∃ s',
    handleReceiveEvent (textFrame "_DISCONNECT" reason) s = Ok s' ∧
    connectionState s' = Disconnected ∧
    ws s' = None ∧
    autoReconnect s' = false ∧
    retryTimeout s' = None ∧
    timers s' = [] ∧
    toasts (log s')
    = toasts (log s)
      ++ [Toast TLoading (MsgServer (label s) reason) (Some 10000000)] ∧
    autoReconnect (run inputs s') = false ∧
    scheduledDelays (log (run inputs s')) = scheduledDelays (log s') ∧
    connectAttempts (log (run inputs s')) = connectAttempts (log s').
Proof.
  intros Htoast Hsingle Hnot.
  destruct (disconnect_quiescent s Hsingle)
    as ([Ha Ht] & Hws & Hrt & Hc & _ & Hts & _ & _).
  set (s1 := disconnect s) in *.
  exists (notify TLoading (MsgServer (label s1) reason) (Some 10000000) s1).
  assert (Htoast1 : toast s1 = true).
  { destruct Hc as (_ & _ & -> & _). done. }
  assert (Hlabel : label s1 = label s).
  { destruct Hc as (_ & -> & _). done. }
  split; [reflexivity|].
  unfold notify. rewrite Htoast1, Hlabel.
  set (s2 := emit s1 _).
  assert (Hq : quiescent s2) by done.
  destruct (run_quiet inputs s2 Hnot Hq) as ([Ha' _] & Hd & Hn).
  split. { unfold connectionState, wsReadyState. cbn. by rewrite Hws. }
  repeat split; try done.
  subst s2. cbn [log emit]. by rewrite toasts_app, Hts.
Qed.

Example server_disconnect_example :
  let s := run [CallConnect; SocketOpens 0%nat]
             (newSession (MkConfig "ws://localhost" "Server" true 250 10000 true)) in
  ∃ s',
    handleReceiveEvent (textFrame "_DISCONNECT" (VStr "server maintenance")) s
    = Ok s' ∧
    connectionState s' = Disconnected ∧
    autoReconnect (run [SocketCloses 0%nat; TimerFires 0%nat] s') = false.
Proof.
  destruct (server_disconnect
              (run [CallConnect; SocketOpens 0%nat]
                 (newSession (MkConfig "ws://localhost" "Server" true 250 10000 true)))
              (VStr "server maintenance")
              [SocketCloses 0%nat; TimerFires 0%nat])
    as (s' & H1 & H2 & _ & _ & _ & _ & _ & H3 & _).
  - reflexivity.
  - intros p Hp. vm_compute in Hp. by apply elem_of_nil in Hp.
  - intros Hin. repeat (apply elem_of_cons in Hin as [Hin|Hin]; [discriminate|]).
    by apply elem_of_nil in Hin.
  - exists s'. split; [exact H1|]. split; [exact H2 | exact H3].
Qed.

(** ** The transition function *)

Lemma reduce_applyPatch lib operations document :
  reduce lib operations document = applyPatch lib operations document.
Proof.
  unfold applyPatch. revert document.
  induction operations as [|op rest IH]; intros document; cbn; [done|].
  destruct (applyReducer lib document op) as [doc'|e]; cbn.
  - apply IH.
  - clear. induction rest as [|op' rest IH]; cbn; done.
Qed.

Lemma setEvent_ne_patchEvent key : setEvent key ≠ patchEvent key.
Proof. unfold setEvent, patchEvent. cbn. discriminate. Qed.

Lemma strictEq_refl s : strictEq (VStr s) s = true.
Proof. apply String.eqb_refl. Qed.

(** C7: for every state and pending effect queue, an action of type
    [setEvent key] makes [wrappedReducer] return the action's [data] as the
    new state with no effect, and an action of type [patchEvent key] makes it
    return the patch in [data] applied to [deepClone] of the state, with no
    effect; rendering such an action commits that state and leaves the
    session untouched. *)
Theorem transition_set_patch (lib : PatchLib) (key : string)
    (reducer : option SyncedReducer) (S : Value) (pending : list Effect)
    (fields fields' : list (string * Value)) (operations : list Value)
    (session : option Session) :
  own "type" fields = Some (VStr (setEvent key)) →
  own "type" fields' = Some (VStr (patchEvent key)) →
  own "data" fields' = Some (VArr operations) →
  let data := default VUndefined (own "data" fields) in
  wrappedReducer lib key reducer (S, pending) (VObj fields) = Ok (data, []) ∧
  render lib key reducer (MkWorld session S pending [VObj fields])
  = Ok (MkWorld session data [] []) ∧
  wrappedReducer lib key reducer (S, pending) (VObj fields')
  = (newState ← applyPatch lib operations (deepClone lib S); Ok (newState, [])) ∧
  render lib key reducer (MkWorld session S pending [VObj fields'])
  = (newState ← applyPatch lib operations (deepClone lib S);
     Ok (MkWorld session newState [] [])).
Proof.
  intros Hset Hpatch Hdata. cbn zeta.
  assert (Hs : wrappedReducer lib key reducer (S, pending) (VObj fields)
               = Ok (default VUndefined (own "data" fields), [])).
  { unfold wrappedReducer. cbn. rewrite Hset. cbn.
    unfold strictEq. by rewrite String.eqb_refl. }
  assert (Hp : wrappedReducer lib key reducer (S, pending) (VObj fields')
               = (newState ← applyPatch lib operations (deepClone lib S);
                  Ok (newState, []))).
  { unfold wrappedReducer. cbn. rewrite Hpatch, Hdata. cbn.
    unfold strictEq.
    assert (String.eqb (patchEvent key) (setEvent key) = false) as ->.
    { apply String.eqb_neq. intros H. by apply (setEvent_ne_patchEvent key). }
    rewrite String.eqb_refl. by rewrite reduce_applyPatch. }
  split; [exact Hs|]. split.
  { unfold render. cbn [queue reduceQueue state effects].
    change (reduceQueue lib key reducer [VObj fields] (S, pending))
      with (next ← wrappedReducer lib key reducer (S, pending) (VObj fields);
            Ok next).
    rewrite Hs. reflexivity. }
  split; [exact Hp|].
  unfold render. cbn [queue reduceQueue state effects].
  change (reduceQueue lib key reducer [VObj fields'] (S, pending))
    with (next ← wrappedReducer lib key reducer (S, pending) (VObj fields');
          Ok next).
  rewrite Hp. destruct (applyPatch lib operations (deepClone lib S)); reflexivity.
Qed.

(** A snapshot and a one-operation patch on the counter. *)
Lemma transition_set_patch_witness :
  wrappedReducer fastJsonPatch "counter" None (counterState 0, [])
    (VObj [("type", VStr "_SET:counter"); ("data", counterState 7)])
  = Ok (counterState 7, []) ∧
  wrappedReducer fastJsonPatch "counter" None (counterState 0, [])
    (VObj [("type", VStr "_PATCH:counter");
           ("data", replacePatch "count" (VNum 5))])
  = Ok (counterState 5, []).
Proof.
  destruct (transition_set_patch fastJsonPatch "counter" None (counterState 0) []
              [("type", VStr "_SET:counter"); ("data", counterState 7)]
              [("type", VStr "_PATCH:counter");
               ("data", replacePatch "count" (VNum 5))]
              [VObj [("op", VStr "replace"); ("path", VStr "/count");
                     ("value", VNum 5)]]
              None)
    as (H1 & _ & H2 & _).
  - reflexivity.
  - reflexivity.
  - reflexivity.
  - split; [exact H1 | exact H2].
Defined.

(** ** The generated accessors *)

Example setters_counter :
  setters (counterState 0)
  = [("setCount", Setter "count"); ("syncCount", Syncer "count")].
Proof. reflexivity. Qed.

(** C2 (amended): over key [counter] with initial state [{count: 0}] and a
    connected session, [syncCount(5)] brings the local state to [{count: 5}]
    and writes exactly one text frame, [{type: "_PATCH:counter", data:
    [{op: "replace", path: "/count", value: 5}]}]. *)
Theorem syncCount_scenario (s : Session) (id : nat)
    (reducer : option SyncedReducer) :
  openSocket s = Some id →
  ∃ w1 w2 s',
    call "counter" (counterState 0) "syncCount" (VNum 5) (counterWorld s)
    = Ok w1 ∧
    render fastJsonPatch "counter" reducer w1 = Ok w2 ∧
    state w2 = counterState 5 ∧
    session w2 = Some s' ∧
    log s' = log s ++ [SendText id (countPatchFrame "op")] ∧
    writes (log s') = writes (log s) ++ [SendText id (countPatchFrame "op")].
Proof.
  intros Hopen.
  eexists. eexists. exists (emit s (SendText id (countPatchFrame "op"))).
  split.
  { change (call "counter" (counterState 0) "syncCount" (VNum 5) (counterWorld s))
      with (Ok (callAccessor "counter" (Syncer "count") (VNum 5) (counterWorld s))).
    unfold callAccessor, sendPatch, sessionSend, patchState, dispatch.
    cbn [session counterWorld]. unfold send. rewrite Hopen. reflexivity. }
  split; [reflexivity|]. split; [reflexivity|]. split; [reflexivity|].
  split; [reflexivity|]. cbn [log emit]. by rewrite writes_app.
Qed.

(** The scenario on a session connected with the default configuration. *)
Lemma syncCount_scenario_witness :
  ∃ w2,
    (w1 ← call "counter" (counterState 0) "syncCount" (VNum 5)
            (counterWorld (connectedSession (defaultConfig "ws://localhost")));
     render fastJsonPatch "counter" None w1) = Ok w2 ∧
    state w2 = counterState 5.
Proof.
  destruct (syncCount_scenario
              (connectedSession (defaultConfig "ws://localhost")) 0%nat None)
    as (w1 & w2 & s' & H1 & H2 & H3 & _).
  - reflexivity.
  - exists w2. rewrite H1. cbn. split; [exact H2 | exact H3].
Defined.

(** C2 as stated fails: the operation in the frame is keyed [op], not
    [operation]. *)
Lemma syncCount_frame_key :
  ¬ (∀ (s : Session) (id : nat),
       openSocket s = Some id →
       ∃ w1 s',
         call "counter" (counterState 0) "syncCount" (VNum 5) (counterWorld s)
         = Ok w1 ∧
         session w1 = Some s' ∧
         writes (log s')
         = writes (log s) ++ [SendText id (countPatchFrame "operation")]).
Proof.
  intros H.
  destruct (H (connectedSession (defaultConfig "ws://localhost")) 0%nat
              eq_refl) as (w1 & s' & Hcall & Hs & Hw).
  vm_compute in Hcall. injection Hcall as <-.
  cbn in Hs. injection Hs as <-. vm_compute in Hw. discriminate.
Qed.

(** ** The reply to a state request *)

Lemma runCallback_sendState key captured arg w :
  runCallback key (CbSendState key captured) arg w = sendState key captured w.
Proof. cbn. by rewrite String.eqb_refl. Qed.

(** The handler registered for [getEvent] sends the state it captured. *)
Lemma receive_get key captured id s st fx q :
  sockets s !! id = Some (MkSocket OPEN true) →
  ws s = Some id →
  eventHandlers s !! getEvent key = Some (CbSendState key captured) →
  receive key id (textFrame (getEvent key) (VObj [])) (MkWorld (Some s) st fx q)
  = MkWorld
      (Some (emit (emit s (Invoke (CbSendState key captured) (VObj [])))
                  (SendText id
                     (jsonView (VObj [("type", VStr (setEvent key));
                                      ("data", captured)])))))
      st fx q.
Proof.
  intros Hsock Hws Hcb.
  assert (Hrecv : handleReceiveEvent (textFrame (getEvent key) (VObj [])) s
                  = Ok (emit s (Invoke (CbSendState key captured) (VObj [])))).
  { unfold handleReceiveEvent, textFrame, getEvent. cbn.
    unfold hasProperty, callMember.
    change ("_GET:" ++ key)%string with (getEvent key). by rewrite Hcb. }
  unfold receive. cbn [session exec]. rewrite Hsock, Hrecv.
  cbn [settle log emit state effects queue].
  rewrite drop_app_length.
  change (omap invoked [Invoke (CbSendState key captured) (VObj [])])
    with [(CbSendState key captured, VObj [])].
  cbn [fold_left fst snd]. rewrite runCallback_sendState.
  unfold sendState, sessionSend. cbn [session state effects queue].
  unfold send, openSocket, wsReadyState. cbn [ws sockets emit].
  rewrite Hws. cbn. rewrite Hsock. cbn. reflexivity.
Qed.

(** When the state has not changed since the hook was mounted, the reply
    carries the current state. *)
Lemma get_replies_current_state key id s st fx q :
  sockets s !! id = Some (MkSocket OPEN true) →
  ws s = Some id →
  eventHandlers s !! getEvent key = Some (CbSendState key st) →
  isJson st = true →
  ∃ s',
    receive key id (textFrame (getEvent key) (VObj [])) (MkWorld (Some s) st fx q)
    = MkWorld (Some s') st fx q ∧
    writes (log s')
    = writes (log s)
      ++ [SendText id (VObj [("type", VStr (setEvent key)); ("data", jsonView st)])].
Proof.
  intros Hsock Hws Hcb Hjson. eexists. split.
  - by apply receive_get.
  - cbn [log emit]. rewrite !writes_app. cbn [writes List.filter isWrite].
    rewrite app_nil_r. do 3 f_equal. destruct st; try done.
Qed.

(** C8: the reply to [_GET:counter] does not always carry the current
    state.  The hook is mounted with [{count: 0}], [syncCount(5)] brings the
    state to [{count: 5}], and the request is then answered with one frame
    [{type: "_SET:counter", data: {count: 0}}]: the handler still holds the
    state of the render that registered it.  The local state is unchanged. *)
Theorem get_replies_with_mounted_state :
  let w0 := counterWorld (connectedSession (defaultConfig "ws://localhost")) in
  let w1 := fst (mount "counter" false w0) in
  ∃ w2 w3 s3 s4,
    call "counter" (counterState 0) "syncCount" (VNum 5) w1 = Ok w2 ∧
    render fastJsonPatch "counter" None w2 = Ok w3 ∧
    state w3 = counterState 5 ∧
    session w3 = Some s3 ∧
    let w4 := receive "counter" 0
                (textFrame "_GET:counter" (VObj [])) w3 in
    state w4 = counterState 5 ∧
    session w4 = Some s4 ∧
    writes (log s4)
    = writes (log s3)
      ++ [SendText 0 (VObj [("type", VStr "_SET:counter");
                            ("data", counterState 0)])].
Proof.
  cbn zeta. eexists. eexists. eexists. eexists.
  split; [vm_compute; reflexivity|].
  split; [vm_compute; reflexivity|].
  split; [reflexivity|]. split; [reflexivity|].
  split; [vm_compute; reflexivity|].
  split; [vm_compute; reflexivity|].
  vm_compute. reflexivity.
Qed.

(** ** The connection flag after a disconnect *)

Lemma disconnect_keeps_flag s : isConnected (disconnect s) = isConnected s.
Proof. unfold disconnect, wsClose, observe, clearTimeout. crunch; done. Qed.

(** C6: a connected session that receives [{type: "_DISCONNECT", data: reason}]
    drops its socket and stops reconnecting, but its [isConnected] flag stays
    set: [disconnect()] does not clear it and detaches the close handler
    that would. *)
Theorem server_disconnect_flag (c : SessionConfig) (reason : Value) :
  let s := connectedSession c in
  let s' := exec (SocketReceives 0 (textFrame "_DISCONNECT" reason)) s in
  isConnected s = true ∧
  ws s' = None ∧
  autoReconnect s' = false ∧
  retryTimeout s' = None ∧
  isConnected s' = true.
Proof. destruct c as [u l [] lo hi []]; repeat split; reflexivity. Qed.

(** ** Sessions under disciplined use *)

(** Only five fields matter to coherence. *)
Lemma Coherent_ext s s' :
  ws s' = ws s → sockets s' = sockets s → timers s' = timers s →
  retryTimeout s' = retryTimeout s → isConnected s' = isConnected s →
  Coherent s → Coherent s'.
Proof.
  intros Hw Hs Ht Hr Hf [H1 H2 H3 H4].
  split; rewrite ?Hw, ?Hs, ?Ht, ?Hr, ?Hf; done.
Qed.

Lemma Coherent_new c : Coherent (newSession c).
Proof.
  split; cbn; try done.
  intros p Hp. by apply elem_of_nil in Hp.
Qed.

(** No timer is pending while the current socket is not closed. *)
Lemma Coherent_no_timer s id r a :
  Coherent s → ws s = Some id → sockets s !! id = Some (MkSocket r a) →
  r ≠ CLOSED → timers s = [].
Proof.
  intros [_ _ _ Ht] Hws Hsock Hr.
  destruct (timers s) as [|p rest] eqn:E; [done|].
  destruct (Ht p) as (_ & id' & Hws' & Hsock'); [left|].
  congruence.
Qed.

Lemma Coherent_no_socket_no_timer s :
  Coherent s → ws s = None → timers s = [].
Proof.
  intros [_ _ _ Ht] Hws.
  destruct (timers s) as [|p rest] eqn:E; [done|].
  destruct (Ht p) as (_ & id' & Hws' & _); [left|]. congruence.
Qed.

Lemma connect_fields s :
  ws (connect s) = Some (length (sockets s)) ∧
  sockets (connect s) = sockets s ++ [MkSocket CONNECTING true] ∧
  timers (connect s) = timers s ∧
  retryTimeout (connect s) = retryTimeout s ∧
  isConnected (connect s) = isConnected s.
Proof. unfold connect, notify. crunch; done. Qed.

Lemma disconnect_fields s :
  ws (disconnect s) = None ∧
  sockets (disconnect s)
  = match ws s with
    | Some id => alter detach id (alter closing id (sockets s))
    | None => sockets s
    end ∧
  timers (disconnect s)
  = match retryTimeout s with
    | Some t => filter (λ p : nat * Z, p.1 ≠ t) (timers s)
    | None => timers s
    end ∧
  retryTimeout (disconnect s) = None ∧
  isConnected (disconnect s) = isConnected s.
Proof. unfold disconnect, wsClose, observe, clearTimeout. crunch; done. Qed.

Lemma onopen_fields s :
  ws (onopen s) = ws s ∧ sockets (onopen s) = sockets s ∧
  timers (onopen s) = timers s ∧ retryTimeout (onopen s) = retryTimeout s ∧
  isConnected (onopen s) = true.
Proof. unfold onopen, notify, observe. crunch; done. Qed.

Lemma onclose_fields s :
  ws (onclose s) = ws s ∧ sockets (onclose s) = sockets s ∧
  isConnected (onclose s) = false ∧
  (timers (onclose s) = timers s ∧ retryTimeout (onclose s) = retryTimeout s ∨
   ∃ d, timers (onclose s) = timers s ++ [(nextTimer s, d)] ∧
        retryTimeout (onclose s) = Some (nextTimer s)).
Proof.
  unfold onclose, notify, observe, setTimeout.
  crunch; repeat split; eauto.
Qed.

Lemma onerror_fields s :
  ws (onerror s) = ws s ∧
  sockets (onerror s)
  = match ws s with
    | Some id => alter closing id (sockets s)
    | None => sockets s
    end ∧
  timers (onerror s) = timers s ∧ retryTimeout (onerror s) = retryTimeout s ∧
  isConnected (onerror s) = isConnected s.
Proof. unfold onerror, wsClose, notify. crunch; done. Qed.

Lemma handleReceiveEvent_fields e s s' :
  handleReceiveEvent e s = Ok s' →
  (ws s' = ws s ∧ sockets s' = sockets s ∧ timers s' = timers s ∧
   retryTimeout s' = retryTimeout s ∧ isConnected s' = isConnected s) ∨
  (ws s' = ws (disconnect s) ∧ sockets s' = sockets (disconnect s) ∧
   timers s' = timers (disconnect s) ∧
   retryTimeout s' = retryTimeout (disconnect s) ∧
   isConnected s' = isConnected (disconnect s)).
Proof.
  unfold handleReceiveEvent, callMember, notify, mbind, exc_bind, bind.
  intros H.
  repeat first [ progress cbn -[disconnect] in *
               | progress simplify_eq
               | case_match ];
    try (left; done); try (right; done).
Qed.
Lemma Coherent_connect s :
  Coherent s →
  (ws s = None ∨ ∃ id, ws s = Some id ∧
                       sockets s !! id = Some (MkSocket CLOSED true)) →
  timers s = [] →
  Coherent (connect s).
Proof.
  intros [H1 H2 H3 H4] Hws Hnone.
  destruct (connect_fields s) as (Hw & Hs & Ht & Hr & Hf).
  split; rewrite ?Hw, ?Hs, ?Ht, ?Hr, ?Hf.
  - intros id [= <-]. exists CONNECTING. by apply list_lookup_middle.
  - intros id r Hlook Hr'. f_equal.
    destruct (decide (id < length (sockets s))%nat) as [Hlt|Hge].
    + rewrite lookup_app_l in Hlook by done.
      specialize (H2 id r Hlook Hr').
      destruct Hws as [Hws|(id' & Hws & Hsock)]; [congruence|].
      assert (id' = id) by congruence. subst. congruence.
    + apply lookup_lt_Some in Hlook. rewrite length_app in Hlook. cbn in Hlook.
      lia.
  - intros id a [= <-]. rewrite list_lookup_middle by done. congruence.
  - rewrite Hnone. intros p Hp. by apply elem_of_nil in Hp.
Qed.

Lemma Coherent_disconnect s : Coherent s → Coherent (disconnect s).
Proof.
  intros [H1 H2 H3 H4].
  destruct (disconnect_fields s) as (Hw & Hs & Ht & Hr & Hf).
  split; rewrite ?Hw, ?Hs, ?Ht, ?Hr, ?Hf; try done.
  - intros id r Hlook Hr'. exfalso.
    destruct (ws s) as [cur|] eqn:Hcur.
    + destruct (decide (cur = id)) as [->|Hne].
      * rewrite list_lookup_alter_eq in Hlook.
        destruct (alter closing id (sockets s) !! id) as [[]|];
          cbn in Hlook; simplify_eq.
      * rewrite !list_lookup_alter_ne in Hlook by done.
        specialize (H2 id r Hlook Hr'). congruence.
    + specialize (H2 id r Hlook Hr'). congruence.
  - intros p Hp. exfalso. destruct (retryTimeout s) as [t|] eqn:Hrt.
    + apply list_elem_of_filter in Hp as [Hne Hp].
      destruct (H4 p Hp) as [Heq _]. congruence.
    + destruct (H4 p Hp) as [Heq _]. congruence.
Qed.

Lemma Coherent_opens s id a :
  Coherent s →
  sockets s !! id = Some (MkSocket CONNECTING a) →
  let s1 := setReadyState id OPEN s in
  Coherent (if a then onopen s1 else s1).
Proof.
  intros [H1 H2 H3 H4] Hsock. cbn zeta.
  set (s1 := setReadyState id OPEN s).
  assert (Hs1 : sockets s1 = alter (λ sock, MkSocket OPEN (attached sock)) id (sockets s))
    by done.
  assert (Hlook : ∀ j, sockets s1 !! j
                       = if decide (id = j) then Some (MkSocket OPEN a)
                         else sockets s !! j).
  { intros j. rewrite Hs1. destruct (decide (id = j)) as [<-|Hne].
    - by rewrite list_lookup_alter_eq, Hsock.
    - by rewrite list_lookup_alter_ne. }
  assert (Hcore : ∀ s2, ws s2 = ws s → sockets s2 = sockets s1 →
                        timers s2 = timers s → retryTimeout s2 = retryTimeout s →
                        (a = true → isConnected s2 = true) →
                        (a = false → isConnected s2 = isConnected s) →
                        Coherent s2).
  { intros s2 Hw Hs Ht Hr Hf1 Hf2.
    split; rewrite ?Hw, ?Hs, ?Ht, ?Hr.
    - intros j Hj. rewrite Hlook. destruct (decide (id = j)) as [<-|Hne]; [|eauto].
      destruct (H1 id Hj) as [r Hr']. exists OPEN. congruence.
    - intros j r. rewrite Hlook. destruct (decide (id = j)) as [<-|Hne]; [|eauto].
      intros Heq _. simplify_eq. by apply (H2 id CONNECTING).
    - intros j b Hj. rewrite Hlook. destruct (decide (id = j)) as [<-|Hne].
      + intros Heq. simplify_eq. destruct (H1 id Hj) as [r Hr'].
        apply Hf1. congruence.
      + intros Hopen. destruct a; [by apply Hf1|].
        rewrite Hf2 by done. by apply (H3 j b).
    - intros p Hp. destruct (H4 p Hp) as (Heq & j & Hj & Hclosed).
      split; [done|]. exists j. split; [done|]. rewrite Hlook.
      destruct (decide (id = j)) as [<-|Hne]; [congruence|done]. }
  destruct a.
  - destruct (onopen_fields s1) as (Hw & Hs & Ht & Hr & Hf).
    apply Hcore; done.
  - apply Hcore; done.
Qed.
Lemma lookup_setReadyState id r s j :
  sockets (setReadyState id r s) !! j
  = if decide (id = j)
    then (λ sock, MkSocket r (attached sock)) <$> sockets s !! j
    else sockets s !! j.
Proof.
  unfold setReadyState. cbn. destruct (decide (id = j)) as [<-|Hne].
  - apply list_lookup_alter_eq.
  - by apply list_lookup_alter_ne.
Qed.

Lemma Coherent_closes s id r a :
  Coherent s →
  sockets s !! id = Some (MkSocket r a) →
  r ≠ CLOSED →
  let s1 := setReadyState id CLOSED s in
  Coherent (if a then onclose s1 else s1).
Proof.
  intros Hco Hsock Hr. cbn zeta.
  set (s1 := setReadyState id CLOSED s).
  assert (Hlook : ∀ j, sockets s1 !! j
                       = if decide (id = j) then Some (MkSocket CLOSED a)
                         else sockets s !! j).
  { intros j. subst s1. rewrite lookup_setReadyState.
    destruct (decide (id = j)) as [<-|]; [by rewrite Hsock|done]. }
  destruct a.
  - assert (Hcur : ws s = Some id) by (by apply (co_current s Hco id r)).
    assert (Hnone : timers s = [])
      by (by apply (Coherent_no_timer s id r true)).
    destruct (onclose_fields s1) as (Hw & Hs & Hf & Ht).
    change (ws s1) with (ws s) in Hw. change (timers s1) with (timers s) in Ht.
    change (retryTimeout s1) with (retryTimeout s) in Ht.
    change (nextTimer s1) with (nextTimer s) in Ht.
    destruct Hco as [H1 H2 H3 H4].
    split; rewrite ?Hw, ?Hs, ?Hf.
    + intros j Hj. rewrite Hlook. assert (j = id) as -> by congruence.
      rewrite decide_True by done. eauto.
    + intros j r'. rewrite Hlook. destruct (decide (id = j)) as [<-|Hne].
      * intros Heq Hr'. simplify_eq.
      * intros Hj Hr'. specialize (H2 j r' Hj Hr'). congruence.
    + intros j b Hj. rewrite Hlook. assert (j = id) as -> by congruence.
      rewrite decide_True by done. intros Heq. simplify_eq.
    + intros p Hp. destruct Ht as [[Ht _]|(d & Ht & Hrt)].
      * rewrite Ht, Hnone in Hp. by apply elem_of_nil in Hp.
      * rewrite Ht, Hnone in Hp. apply list_elem_of_singleton in Hp as ->.
        split; [done|]. exists id. split; [done|]. rewrite Hlook.
        by rewrite decide_True.
  - destruct Hco as [H1 H2 H3 H4].
    assert (Hnot : ws s ≠ Some id).
    { intros Hcur. destruct (H1 id Hcur) as [r' Hr']. congruence. }
    split; change (ws s1) with (ws s); change (timers s1) with (timers s);
      change (retryTimeout s1) with (retryTimeout s);
      change (isConnected s1) with (isConnected s).
    + intros j Hj. rewrite Hlook. rewrite decide_False by congruence. eauto.
    + intros j r'. rewrite Hlook. destruct (decide (id = j)) as [<-|Hne].
      * intros Heq. simplify_eq.
      * apply H2.
    + intros j b Hj. rewrite Hlook. rewrite decide_False by congruence.
      by apply H3.
    + intros p Hp. destruct (H4 p Hp) as (Heq & j & Hj & Hclosed).
      split; [done|]. exists j. split; [done|]. rewrite Hlook.
      rewrite decide_False by congruence. done.
Qed.

Lemma Coherent_fails s id r :
  Coherent s →
  sockets s !! id = Some (MkSocket r true) →
  r ≠ CLOSED →
  Coherent (onerror s).
Proof.
  intros Hco Hsock Hr.
  assert (Hcur : ws s = Some id) by (by apply (co_current s Hco id r)).
  assert (Hnone : timers s = [])
    by (by apply (Coherent_no_timer s id r true)).
  destruct (onerror_fields s) as (Hw & Hs & Ht & Hrt & Hf).
  rewrite Hcur in Hs.
  assert (Hlook : ∀ j, sockets (onerror s) !! j
                       = if decide (id = j)
                         then Some (closing (MkSocket r true))
                         else sockets s !! j).
  { intros j. rewrite Hs. destruct (decide (id = j)) as [<-|Hne].
    - by rewrite list_lookup_alter_eq, Hsock.
    - by rewrite list_lookup_alter_ne. }
  destruct Hco as [H1 H2 H3 H4].
  split; rewrite ?Hw, ?Ht, ?Hrt, ?Hf.
  - intros j Hj. rewrite Hlook. assert (j = id) as -> by congruence.
    rewrite decide_True by done. destruct r; cbn; eauto.
  - intros j r'. rewrite Hlook. destruct (decide (id = j)) as [<-|Hne].
    + done.
    + apply H2.
  - intros j b Hj. rewrite Hlook. assert (j = id) as -> by congruence.
    rewrite decide_True by done. destruct r; cbn; intros Heq; simplify_eq.
  - rewrite Hnone. intros p Hp. by apply elem_of_nil in Hp.
Qed.

Lemma Coherent_timer s t :
  Coherent s →
  existsb (fun p => Nat.eqb (fst p) t) (timers s) = true →
  Coherent (retry (set_timers s (filter (λ p : nat * Z, p.1 ≠ t) (timers s))
                              (nextTimer s))).
Proof.
  intros Hco Hpending.
  set (s1 := set_timers s _ _).
  apply existsb_exists in Hpending as (p & Hp & Hpt).
  apply Nat.eqb_eq in Hpt. apply list_elem_of_In in Hp.
  destruct (co_timers s Hco p Hp) as (Hrt & id & Hcur & Hclosed).
  assert (Hnone : timers s1 = []).
  { subst s1. cbn.
    destruct (filter _ (timers s)) as [|q rest] eqn:E; [done|].
    assert (Hq : q ∈ filter (λ p : nat * Z, p.1 ≠ t) (timers s))
      by (rewrite E; left).
    apply list_elem_of_filter in Hq as [Hne Hq].
    destruct (co_timers s Hco q Hq) as (Hrt' & _).
    exfalso. apply Hne. congruence. }
  assert (Hco1 : Coherent s1).
  { destruct Hco as [H1 H2 H3 H4]. split; try done.
    rewrite Hnone. intros q Hq. by apply elem_of_nil in Hq. }
  unfold retry. destruct (_ && _); [|done].
  apply Coherent_connect; [done| |done]. right. by exists id.
Qed.
Lemma exec_coherent i s :
  Coherent s → (i = CallConnect → ws s = None) → Coherent (exec i s).
Proof.
  intros Hco Hconnect.
  assert (Hext : ∀ s', ws s' = ws s → sockets s' = sockets s →
                       timers s' = timers s →
                       retryTimeout s' = retryTimeout s →
                       isConnected s' = isConnected s → Coherent s')
    by (intros; by apply (Coherent_ext s)).
  destruct i; cbn [exec].
  - apply Coherent_connect; [done|left; auto|].
    apply Coherent_no_socket_no_timer; auto.
  - by apply Coherent_disconnect.
  - apply Hext; unfold send, notify; crunch; done.
  - apply Hext; unfold sendBinary, notify; crunch; done.
  - apply Hext; unfold registerEvent, settle; crunch; done.
  - apply Hext; unfold deregisterEvent, settle; crunch; done.
  - apply Hext; unfold registerInit, settle; crunch; done.
  - apply Hext; unfold deregisterInit, settle; crunch; done.
  - apply Hext; unfold registerBinary, settle; crunch; done.
  - apply Hext; unfold deregisterBinary, settle; crunch; done.
  - destruct (sockets s !! id) as [[[] a]|] eqn:Hsock; try done.
    by apply Coherent_opens.
  - destruct (sockets s !! id) as [[r a]|] eqn:Hsock; [|done].
    destruct r; try done; (eapply Coherent_closes; [done|exact Hsock|done]).
  - destruct (sockets s !! id) as [[r a]|] eqn:Hsock; [|done].
    destruct a; [|by destruct r].
    destruct r; try done; (eapply Coherent_fails; [done|exact Hsock|done]).
  - destruct (sockets s !! id) as [[[] []]|]; try done.
    destruct (handleReceiveEvent e s) as [s'|] eqn:Hrecv; [|done]. cbn.
    apply handleReceiveEvent_fields in Hrecv
      as [(Hw & Hs & Ht & Hr & Hf)|(Hw & Hs & Ht & Hr & Hf)].
    + by apply Hext.
    + by apply (Coherent_ext (disconnect s)); [..|apply Coherent_disconnect].
  - destruct (existsb _ _) eqn:Hpending; [|done].
    by apply Coherent_timer.
Qed.

Lemma Reachable_coherent c s : Reachable c s → Coherent s.
Proof.
  induction 1 as [|s i _ IH Hconnect].
  - apply Coherent_new.
  - by apply exec_coherent.
Qed.

(** Under disciplined use a cleared flag means no open socket, and no timer
    is pending besides the one in [retryTimeout]. *)
Lemma Reachable_flag c s :
  Reachable c s → isConnected s = false → connectionState s ≠ Connected.
Proof.
  intros Hreach Hflag Hstate. apply Reachable_coherent in Hreach.
  unfold connectionState, wsReadyState in Hstate.
  destruct (ws s) as [id|] eqn:Hws; [|done]. cbn in Hstate.
  destruct (sockets s !! id) as [[r a]|] eqn:Hsock; [|done]. cbn in Hstate.
  destruct r; try done.
  pose proof (co_flag s Hreach id a Hws Hsock). congruence.
Qed.

Lemma Reachable_single_timer c s :
  Reachable c s → ∀ p, p ∈ timers s → retryTimeout s = Some p.1.
Proof.
  intros Hreach p Hp. apply Reachable_coherent in Hreach.
  by destruct (co_timers s Hreach p Hp).
Qed.

(** [send] on a reachable session whose flag is clear reports and writes
    nothing. *)
Corollary send_flag_clear c s event data :
  Reachable c s → isConnected s = false → toast s = true →
  send event data s = emit s (Toast TError (MsgNotConnected (label s)) None).
Proof.
  intros Hreach Hflag Htoast. unfold send, notify.
  rewrite openSocket_not_connected by (by apply (Reachable_flag c)).
  by rewrite Htoast.
Qed.

(** On every session reached by disciplined use, [_DISCONNECT] ends the
    retries until [connect()] is called. *)
Corollary server_disconnect_reachable c s reason inputs :
  Reachable c s → toast s = true → CallConnect ∉ inputs →
  ∃ s',
    handleReceiveEvent (textFrame "_DISCONNECT" reason) s = Ok s' ∧
    ws s' = None ∧
    autoReconnect (run inputs s') = false ∧
    scheduledDelays (log (run inputs s')) = scheduledDelays (log s') ∧
    connectAttempts (log (run inputs s')) = connectAttempts (log s').
Proof.
  intros Hreach Htoast Hnot.
  destruct (server_disconnect s reason inputs Htoast
              (Reachable_single_timer c s Hreach) Hnot)
    as (s' & H1 & _ & H2 & _ & _ & _ & _ & H3 & H4 & H5).
  by exists s'.
Qed.

(** ** Instances *)

(** The pairing on a new session with a handler registered under T. *)
Lemma binary_pairing_witness :
  ∃ s1 s2,
    handleReceiveEvent (binMeta "T" (VObj [("id", VNum 1)]))
      (settle localhost (registerEvent "T" (CbUser "onT") localhost)) = Ok s1 ∧
    handleReceiveEvent (BinaryMessage []) s1 = Ok s2 ∧
    binData s2 = VNull.
Proof.
  destruct (binary_pairing
              (settle localhost (registerEvent "T" (CbUser "onT") localhost))
              localhost (CbUser "onT") [])
    as [(s1 & s2 & H1 & H2 & _ & H3) _].
  - reflexivity.
  - reflexivity.
  - reflexivity.
  - exists s1, s2. split; [exact H1|]. split; [exact H2 | exact H3].
Defined.

(** Sending on a new session, which has no socket yet. *)
Lemma send_not_connected_witness :
  let s := newSession (MkConfig "ws://localhost" "Server" true 250 10000 false) in
  toasts (log (send "ping" VNull s))
  = [Toast TError (MsgNotConnected "Server") None] ∧
  writes (log (sendBinary "ping" VNull [] s)) = [].
Proof.
  destruct (send_not_connected
              (newSession (MkConfig "ws://localhost" "Server" true 250 10000 false))
              "ping" VNull VNull [])
    as (_ & _ & _ & H2 & H3 & _).
  - discriminate.
  - reflexivity.
  - split; [exact H3 | exact H2].
Defined.
